(** * useStorage: a React state cell kept in step with a Storage entry

    A shallow embedding of [src/useStorage.ts].  The hook keeps a value
    (React state, here the field [storedObject] of the world) in step with
    one entry of a [Storage] object.  Everything the hook does is a
    computation in a small state-and-exception monad over that world. *)

From Stdlib Require Import ZArith Ascii String List Bool Lia DecimalString.
From stdpp Require Import gmap strings.

Import ListNotations.
Local Open Scope string_scope.
Local Open Scope list_scope.
Set Warnings "-register-all".

(** ** JavaScript values *)

(** The values the hook stores.  Numbers are the integers (floating point
    is outside this embedding); an object is the list of its own
    properties in enumeration order. *)
Inductive value : Type :=
| VUndefined
| VNull
| VBool (b : bool)
| VNum (n : Z)
| VStr (s : string)
| VArr (elems : list value)
| VObj (fields : list (string * value)).

(** A value as the program holds it: objects are compared by [===] on
    their address, so the top-level address travels with the value. *)
Record ref : Type := Ref { addr : nat; val : value }.

Definition undefined : ref := Ref 0 VUndefined.

(** [!!v] is [truthy v]. *)
Definition truthy (v : value) : bool :=
  match v with
  | VUndefined | VNull => false
  | VBool b => b
  | VNum n => negb (n =? 0)%Z
  | VStr s => negb (String.eqb s "")
  | VArr _ | VObj _ => true
  end.

Definition typeof (v : value) : string :=
  match v with
  | VUndefined => "undefined"
  | VNull => "object"
  | VBool _ => "boolean"
  | VNum _ => "number"
  | VStr _ => "string"
  | VArr _ | VObj _ => "object"
  end.

(** The decimal digits of an integer: what [String] and [JSON.stringify]
    print for it as long as it is below 10^21 in magnitude. *)
Definition numberToString (n : Z) : string :=
  NilZero.string_of_int (Z.to_int n).

Fixpoint join (sep : string) (l : list string) : string :=
  match l with
  | [] => ""
  | [x] => x
  | x :: rest => x +:+ sep +:+ join sep rest
  end.

(** [String(v)], the serializer of raw mode. *)
Fixpoint ToString (v : value) : string :=
  match v with
  | VUndefined => "undefined"
  | VNull => "null"
  | VBool b => if b then "true" else "false"
  | VNum n => numberToString n
  | VStr s => s
  | VArr elems =>
      join "," (map (fun x => match x with
                              | VUndefined | VNull => ""
                              | _ => ToString x
                              end) elems)
  | VObj _ => "[object Object]"
  end.

(** *** JSON.stringify *)

Definition hexDigit (n : nat) : ascii :=
  match n with
  | 0 => "0" | 1 => "1" | 2 => "2" | 3 => "3" | 4 => "4" | 5 => "5"
  | 6 => "6" | 7 => "7" | 8 => "8" | 9 => "9" | 10 => "a" | 11 => "b"
  | 12 => "c" | 13 => "d" | 14 => "e" | _ => "f"
  end%char.

Definition dquote : ascii := "034"%char.

Definition escapeChar (c : ascii) : string :=
  let n := nat_of_ascii c in
  if Nat.eqb n 34 then String "\" (String dquote "")
  else if Nat.eqb n 92 then "\\"
  else if Nat.eqb n 8 then "\b"
  else if Nat.eqb n 9 then "\t"
  else if Nat.eqb n 10 then "\n"
  else if Nat.eqb n 12 then "\f"
  else if Nat.eqb n 13 then "\r"
  else if Nat.ltb n 32 then
    "\u00" +:+ String (hexDigit (n / 16)) (String (hexDigit (n mod 16)) "")
  else String c "".

Fixpoint escapeString (s : string) : string :=
  match s with
  | EmptyString => ""
  | String c rest => escapeChar c +:+ escapeString rest
  end.

Definition quoteString (s : string) : string :=
  String dquote (escapeString s +:+ String dquote "").

(** [JSON.stringify(v)]; [None] is the [undefined] it returns for
    [undefined].  Inside an array [undefined] is written as [null], inside
    an object the property is left out. *)
Fixpoint JSON_stringify (v : value) : option string :=
  match v with
  | VUndefined => None
  | VNull => Some "null"
  | VBool b => Some (if b then "true" else "false")
  | VNum n => Some (numberToString n)
  | VStr s => Some (quoteString s)
  | VArr elems =>
      Some ("[" +:+ join "," (map (fun x => match JSON_stringify x with
                                           | Some s => s
                                           | None => "null"
                                           end) elems) +:+ "]")
  | VObj fields =>
      Some ("{" +:+ join "," (flat_map (fun kv => match JSON_stringify (snd kv) with
                                                 | Some s => [quoteString (fst kv) +:+ ":" +:+ s]
                                                 | None => []
                                                 end) fields) +:+ "}")
  end.



(** ** Exceptions *)

Record error : Type := Error { errName : string; errMessage : string }.

(** A call either returns or throws. *)
Inductive result (A : Type) : Type :=
| Ok (a : A)
| Throw (e : error).
Arguments Ok {A} a.
Arguments Throw {A} e.

Definition returns {A : Type} (r : result A) : bool :=
  match r with Ok _ => true | Throw _ => false end.

(** [JSON.stringify] where a string is expected.  For [undefined] it
    hands [undefined] through, which [setItem] would store as the text
    ["undefined"]; the hook serializes no [undefined]. *)
Definition stringify (v : value) : result string :=
  match JSON_stringify v with
  | Some text => Ok text
  | None => Ok "undefined"
  end.

(** *** A reader for JSON text

    [JSON.parse] belongs to the host; the hook below takes it as a
    parameter.  [jsonParse] is the reader used to run the hook on
    examples: it covers the values of this model (integer literals, strings
    of 8-bit characters), and reports anything else as a [SyntaxError]. *)

Definition isSpace (c : ascii) : bool :=
  let n := nat_of_ascii c in
  Nat.eqb n 32 || Nat.eqb n 9 || Nat.eqb n 10 || Nat.eqb n 13.

Fixpoint skipSpace (cs : list ascii) : list ascii :=
  match cs with
  | c :: rest => if isSpace c then skipSpace rest else cs
  | [] => []
  end.

Fixpoint eat (lit : list ascii) (cs : list ascii) : option (list ascii) :=
  match lit, cs with
  | [], _ => Some cs
  | l :: lit', c :: cs' => if Ascii.eqb l c then eat lit' cs' else None
  | _ :: _, [] => None
  end.

Definition digitOf (c : ascii) : option Z :=
  let n := nat_of_ascii c in
  if Nat.leb 48 n && Nat.leb n 57 then Some (Z.of_nat (n - 48)) else None.

Definition hexOf (c : ascii) : option nat :=
  let n := nat_of_ascii c in
  if Nat.leb 48 n && Nat.leb n 57 then Some (n - 48)
  else if Nat.leb 97 n && Nat.leb n 102 then Some (n - 87)
  else if Nat.leb 65 n && Nat.leb n 70 then Some (n - 55)
  else None.

Fixpoint parseDigits (acc : Z) (cs : list ascii) : Z * list ascii :=
  match cs with
  | c :: rest =>
      match digitOf c with
      | Some d => parseDigits (10 * acc + d) rest
      | None => (acc, cs)
      end
  | [] => (acc, [])
  end.

Definition startsFraction (cs : list ascii) : bool :=
  match cs with
  | c :: _ => Ascii.eqb c "." || Ascii.eqb c "e" || Ascii.eqb c "E"
  | [] => false
  end.

Definition parseNatural (cs : list ascii) : option (Z * list ascii) :=
  match cs with
  | c :: rest =>
      match digitOf c with
      | Some d =>
          let '(n, rest') := if (d =? 0)%Z then (0%Z, rest) else parseDigits d rest in
          match rest' with
          | c' :: _ =>
              if startsFraction rest' then None
              else match digitOf c' with Some _ => None | None => Some (n, rest') end
          | [] => Some (n, [])
          end
      | None => None
      end
  | [] => None
  end.

Definition parseNumber (cs : list ascii) : option (Z * list ascii) :=
  match cs with
  | c :: rest =>
      if Ascii.eqb c "-" then
        match parseNatural rest with
        | Some (n, rest') => Some ((- n)%Z, rest')
        | None => None
        end
      else parseNatural cs
  | [] => None
  end.

Definition unescape (c : ascii) : option ascii :=
  let n := nat_of_ascii c in
  if Nat.eqb n 34 || Nat.eqb n 92 || Nat.eqb n 47 then Some c
  else if Ascii.eqb c "b" then Some (ascii_of_nat 8)
  else if Ascii.eqb c "f" then Some (ascii_of_nat 12)
  else if Ascii.eqb c "n" then Some (ascii_of_nat 10)
  else if Ascii.eqb c "r" then Some (ascii_of_nat 13)
  else if Ascii.eqb c "t" then Some (ascii_of_nat 9)
  else None.

(** The characters of a string literal, after its opening quote. *)
Fixpoint parseChars (cs : list ascii) : option (string * list ascii) :=
  match cs with
  | [] => None
  | c :: rest =>
      if Ascii.eqb c dquote then Some ("", rest)
      else if Ascii.eqb c "\" then
        match rest with
        | "u"%char :: h1 :: h2 :: h3 :: h4 :: rest' =>
            match hexOf h1, hexOf h2, hexOf h3, hexOf h4 with
            | Some 0, Some 0, Some a, Some b =>
                match parseChars rest' with
                | Some (s, r) => Some (String (ascii_of_nat (16 * a + b)) s, r)
                | None => None
                end
            | _, _, _, _ => None
            end
        | e :: rest' =>
            match unescape e, parseChars rest' with
            | Some c', Some (s, r) => Some (String c' s, r)
            | _, _ => None
            end
        | [] => None
        end
      else if Nat.ltb (nat_of_ascii c) 32 then None
      else match parseChars rest with
           | Some (s, r) => Some (String c s, r)
           | None => None
           end
  end.

(** [obj[k] = v]: a key read twice keeps its first place and its last value. *)
Fixpoint setField (k : string) (v : value) (fields : list (string * value))
  : list (string * value) :=
  match fields with
  | [] => [(k, v)]
  | (k', v') :: rest =>
      if String.eqb k' k then (k', v) :: rest else (k', v') :: setField k v rest
  end.

Fixpoint parseValue (fuel : nat) (cs : list ascii) {struct fuel}
  : option (value * list ascii) :=
  match fuel with
  | O => None
  | Datatypes.S fuel' =>
      let elements :=
        fix elements (n : nat) (cs : list ascii) : option (list value * list ascii) :=
          match n with
          | O => None
          | Datatypes.S n' =>
              match parseValue fuel' cs with
              | Some (v, rest) =>
                  match skipSpace rest with
                  | c :: rest' =>
                      if Ascii.eqb c "," then
                        match elements n' rest' with
                        | Some (vs, r) => Some (v :: vs, r)
                        | None => None
                        end
                      else if Ascii.eqb c "]" then Some ([v], rest')
                      else None
                  | [] => None
                  end
              | None => None
              end
          end in
      let members :=
        fix members (n : nat) (acc : list (string * value)) (cs : list ascii)
          : option (list (string * value) * list ascii) :=
          match n with
          | O => None
          | Datatypes.S n' =>
              match skipSpace cs with
              | q :: rest =>
                  if Ascii.eqb q dquote then
                    match parseChars rest with
                    | Some (k, rest1) =>
                        match skipSpace rest1 with
                        | colon :: rest2 =>
                            if Ascii.eqb colon ":" then
                              match parseValue fuel' rest2 with
                              | Some (v, rest3) =>
                                  match skipSpace rest3 with
                                  | c :: rest4 =>
                                      if Ascii.eqb c "," then members n' (setField k v acc) rest4
                                      else if Ascii.eqb c "}" then Some (setField k v acc, rest4)
                                      else None
                                  | [] => None
                                  end
                              | None => None
                              end
                            else None
                        | [] => None
                        end
                    | None => None
                    end
                  else None
              | [] => None
              end
          end in
      match skipSpace cs with
      | [] => None
      | c :: rest =>
          if Ascii.eqb c "n" then option_map (pair VNull) (eat (list_ascii_of_string "ull") rest)
          else if Ascii.eqb c "t" then option_map (pair (VBool true)) (eat (list_ascii_of_string "rue") rest)
          else if Ascii.eqb c "f" then option_map (pair (VBool false)) (eat (list_ascii_of_string "alse") rest)
          else if Ascii.eqb c dquote then
            match parseChars rest with
            | Some (s, r) => Some (VStr s, r)
            | None => None
            end
          else if Ascii.eqb c "[" then
            match skipSpace rest with
            | c' :: rest' =>
                if Ascii.eqb c' "]" then Some (VArr [], rest')
                else match elements fuel' rest with
                     | Some (vs, r) => Some (VArr vs, r)
                     | None => None
                     end
            | [] => None
            end
          else if Ascii.eqb c "{" then
            match skipSpace rest with
            | c' :: rest' =>
                if Ascii.eqb c' "}" then Some (VObj [], rest')
                else match members fuel' [] rest with
                     | Some (fs, r) => Some (VObj fs, r)
                     | None => None
                     end
            | [] => None
            end
          else match parseNumber (c :: rest) with
               | Some (n, r) => Some (VNum n, r)
               | None => None
               end
      end
  end.

Definition SyntaxError : error := Error "SyntaxError" "Unexpected token in JSON".

Definition jsonParse (text : string) : result value :=
  let cs := list_ascii_of_string text in
  match parseValue (Datatypes.S (List.length cs)) cs with
  | Some (v, rest) =>
      match skipSpace rest with
      | [] => Ok v
      | _ :: _ => Throw SyntaxError
      end
  | None => Throw SyntaxError
  end.


(** ** The Storage interface *)

(** The three methods of the DOM [Storage] the hook uses, over a state of
    type [S].  [getItem] answers [None] for [null].  Each method can throw
    (private mode, quota); a call that throws leaves the storage as it was,
    as [setItem] does when it raises [QuotaExceededError]. *)
Record Storage (S : Type) : Type := {
  getItem : S -> string -> result (option string);
  setItem : S -> string -> string -> result S;
  removeItem : S -> string -> result S
}.
Arguments getItem {S} _ _ _.
Arguments setItem {S} _ _ _ _.
Arguments removeItem {S} _ _ _.

(** What a run of the hook does to the outside, in order. *)
Inductive call : Type :=
| GetItem (key : string)
| SetItem (key : string) (text : string)
| RemoveItem (key : string)
| OnThrow (e : error)
| ConsoleLog (v : value).

(** The world a run acts on: the storage, the React state cell
    [storedObject], the next free address, and the calls made so far
    (latest last). *)
Record world (S : Type) : Type := World {
  store : S;
  storedObject : ref;
  nextAddr : nat;
  calls : list call
}.
Arguments World {S} _ _ _ _.
Arguments store {S} _.
Arguments storedObject {S} _.
Arguments nextAddr {S} _.
Arguments calls {S} _.

(** ** The monad of the hook: state and exceptions *)

Definition M (S A : Type) : Type := world S -> world S * result A.

Definition ret {S A : Type} (a : A) : M S A := fun w => (w, Ok a).

Definition throw {S A : Type} (e : error) : M S A := fun w => (w, Throw e).

Definition bind {S A B : Type} (m : M S A) (k : A -> M S B) : M S B :=
  fun w =>
    match m w with
    | (w', Ok a) => k a w'
    | (w', Throw e) => (w', Throw e)
    end.

(** [try { body } catch (error) { handler }]: what the body did before it
    threw stays done. *)
Definition tryCatch {S A : Type} (body : M S A) (handler : error -> M S A) : M S A :=
  fun w =>
    match body w with
    | (w', Ok a) => (w', Ok a)
    | (w', Throw e) => handler e w'
    end.

(** A pure call that may throw. *)
Definition lift {S A : Type} (r : result A) : M S A := fun w => (w, r).

Declare Scope hook_scope.
Delimit Scope hook_scope with hook.
Notation "x <- m ;; k" := (bind m (fun x => k))
  (at level 100, m at next level, right associativity) : hook_scope.
Notation "m ;;; k" := (bind m (fun _ => k))
  (at level 100, right associativity) : hook_scope.
Local Open Scope hook_scope.

Definition record {S : Type} (c : call) : M S unit :=
  fun w => (World (store w) (storedObject w) (nextAddr w) (calls w ++ [c]), Ok tt).

(** The value [v] at a fresh address: what a deserializer hands back. *)
Definition fresh {S : Type} (v : value) : M S ref :=
  fun w => (World (store w) (storedObject w) (Datatypes.S (nextAddr w)) (calls w),
            Ok (Ref (nextAddr w) v)).

Definition getStoredObject {S : Type} : M S ref := fun w => (w, Ok (storedObject w)).

Definition setStoredObject {S : Type} (r : ref) : M S unit :=
  fun w => (World (store w) r (nextAddr w) (calls w), Ok tt).

(** ** Options *)

(** [{ raw: true } | { raw: false, serializer, deserializer }] *)
Inductive parsers : Type :=
| Raw
| Parsers (serializer : value -> result string) (deserializer : string -> result value).

Record parserOptions : Type := {
  optOnThrow : option (error -> result unit);
  optParsers : parsers
}.

(** What line 40 destructures. *)
Record settings : Type := {
  onThrow : option (error -> result unit);
  raw : bool;
  serializer : value -> result string;
  deserializer : string -> result value
}.

(** ** Storages to run the hook on *)

Definition QuotaExceededError : error := Error "QuotaExceededError" "The quota has been exceeded.".
Definition SecurityError : error := Error "SecurityError" "The operation is insecure.".

(** A storage that never throws. *)
Definition memoryStorage : Storage (gmap string string) := {|
  getItem st key := Ok (st !! key);
  setItem st key text := Ok (<[key := text]> st);
  removeItem st key := Ok (delete key st)
|}.

(** A storage that holds texts of at most [limit] characters. *)
Definition quotaStorage (limit : nat) : Storage (gmap string string) := {|
  getItem st key := Ok (st !! key);
  setItem st key text :=
    if Nat.leb (String.length text) limit then Ok (<[key := text]> st)
    else Throw QuotaExceededError;
  removeItem st key := Ok (delete key st)
|}.

(** A storage the page may not touch. *)
Definition deniedStorage : Storage unit := {|
  getItem _ _ := Throw SecurityError;
  setItem _ _ _ := Throw SecurityError;
  removeItem _ _ := Throw SecurityError
|}.

(** The mock of the test suite: [getItem] answers [answer], the writes do
    nothing. *)
Definition mockStorage (answer : option string) : Storage unit := {|
  getItem _ _ := Ok answer;
  setItem st _ _ := Ok st;
  removeItem st _ := Ok st
|}.

(** Before the first render: nothing held, nothing called. *)
Definition start {S : Type} (st : S) : world S := World st undefined 1 [].

(** An [onThrow] that takes the error and returns. *)
Definition quietHandler : error -> result unit := fun _ => Ok tt.

(** [{ raw: true, onThrow }] *)
Definition rawOptions (handler : option (error -> result unit)) : option parserOptions :=
  Some {| optOnThrow := handler; optParsers := Raw |}.

(** [{ raw: false, serializer, deserializer, onThrow }] *)
Definition customOptions (handler : option (error -> result unit))
           (ser : value -> result string) (de : string -> result value)
  : option parserOptions :=
  Some {| optOnThrow := handler; optParsers := Parsers ser de |}.

(** A deserializer that refuses every text. *)
Definition failingDeserializer : string -> result value := fun _ => Throw SyntaxError.

(** ** Deep equality *)

Fixpoint lookupField (k : string) (fields : list (string * value)) : option value :=
  match fields with
  | [] => None
  | (k', v) :: rest => if String.eqb k' k then Some v else lookupField k rest
  end.

(** Modelled from the spec: [isDeepEqual] of [./misc/isDeepEqual], which is
    not among the sources.  A structural comparison: scalars by value,
    sequences in order, key-value mappings key by key, values of unequal
    types unequal.  It instantiates the parameter [isDeepEqual] of the hook
    in the examples. *)
Fixpoint deepEqual (a b : value) {struct a} : bool :=
  match a, b with
  | VUndefined, VUndefined => true
  | VNull, VNull => true
  | VBool x, VBool y => Bool.eqb x y
  | VNum x, VNum y => (x =? y)%Z
  | VStr x, VStr y => String.eqb x y
  | VArr xs, VArr ys =>
      (fix pairwise (xs ys : list value) : bool :=
         match xs, ys with
         | [], [] => true
         | x :: xs', y :: ys' => deepEqual x y && pairwise xs' ys'
         | _, _ => false
         end) xs ys
  | VObj fa, VObj fb =>
      Nat.eqb (List.length fa) (List.length fb)
      && (fix every (fields : list (string * value)) : bool :=
            match fields with
            | [] => true
            | (k, v) :: rest =>
                match lookupField k fb with
                | Some v' => deepEqual v v'
                | None => false
                end && every rest
            end) fa
  | _, _ => false
  end.

(** An object has no property twice, at any depth. *)
Fixpoint wellFormed (v : value) : Prop :=
  match v with
  | VArr elems =>
      (fix all (l : list value) : Prop :=
         match l with
         | [] => True
         | x :: l' => wellFormed x /\ all l'
         end) elems
  | VObj fields =>
      List.NoDup (map fst fields)
      /\ (fix all (l : list (string * value)) : Prop :=
            match l with
            | [] => True
            | kv :: l' => wellFormed (snd kv) /\ all l'
            end) fields
  | _ => True
  end.

(** ** The hook *)

Section UseStorage.

Context {S : Type}.
(** [JSON.parse], the host's. *)
Variable JSON_parse : string -> result value.
(** [isDeepEqual] of [./misc/isDeepEqual], which is not among the
    sources: a parameter of the hook. *)
Variable isDeepEqual : value -> value -> bool.
Variable storage : Storage S.
Variable initialValue : ref.
Variable options : option parserOptions.

Definition defaultOptions_serializer (rawObject : value) : result string :=
  stringify rawObject.

Definition defaultOptions_deserializer (serializedStoredObject : string) : result value :=
  JSON_parse serializedStoredObject.

Definition defaultRawOptions_serializer (rawObject : value) : result string :=
  Ok (ToString rawObject).

Definition defaultRawOptions_deserializer (serializedStoredObject : string) : result value :=
  Ok (VStr serializedStoredObject).

Definition resolve : settings :=
  match options with
  | Some {| optOnThrow := h; optParsers := Raw |} =>
      {| onThrow := h; raw := true;
         serializer := defaultRawOptions_serializer;
         deserializer := defaultRawOptions_deserializer |}
  | Some {| optOnThrow := h; optParsers := Parsers ser de |} =>
      {| onThrow := h; raw := false; serializer := ser; deserializer := de |}
  | None =>
      {| onThrow := None; raw := false;
         serializer := defaultOptions_serializer;
         deserializer := defaultOptions_deserializer |}
  end.

Definition storage_getItem (key : string) : M S (option string) :=
  record (GetItem key) ;;;
  fun w => (w, getItem storage (store w) key).

Definition storage_setItem (key text : string) : M S unit :=
  record (SetItem key text) ;;;
  fun w =>
    match setItem storage (store w) key text with
    | Ok st => (World st (storedObject w) (nextAddr w) (calls w), Ok tt)
    | Throw e => (w, Throw e)
    end.

Definition storage_removeItem (key : string) : M S unit :=
  record (RemoveItem key) ;;;
  fun w =>
    match removeItem storage (store w) key with
    | Ok st => (World st (storedObject w) (nextAddr w) (calls w), Ok tt)
    | Throw e => (w, Throw e)
    end.

(** [onThrow?.(error)] *)
Definition callOnThrow (e : error) : M S unit :=
  match onThrow resolve with
  | Some handler => record (OnThrow e) ;;; lift (handler e)
  | None => ret tt
  end.

(** The [try] block of [initializer]. *)
Definition initializer_try (key : string) : M S ref :=
  storedObject <- storage_getItem key ;;
  match storedObject with
  | Some text =>
      v <- lift (deserializer resolve text) ;;
      fresh v
  | None =>
      (if truthy (val initialValue) then
         text <- lift (serializer resolve (val initialValue)) ;;
         storage_setItem key text
       else ret tt) ;;;
      ret initialValue
  end.

Definition initializer (key : string) : M S ref :=
  tryCatch (initializer_try key)
           (fun e => callOnThrow e ;;; ret initialValue).

(** The body of the layout effect: the reconciler. *)
Definition reconcile (key : string) : M S unit :=
  newValue <- initializer key ;;
  held <- getStoredObject ;;
  if negb (isDeepEqual (val newValue) (val held))
  then setStoredObject newValue
  else ret tt.

(** [SetStateAction]: a value, or a function of the held value. *)
Inductive setStateAction : Type :=
| Value (v : ref)
| Updater (f : ref -> result ref).

(** The text [set] writes for [newValue] (lines 85-89); in the last
    branch [newValue] is a string, and [ToString] leaves it as it is. *)
Definition transform (newValue : value) : result string :=
  if negb (raw resolve) then serializer resolve newValue
  else if negb (String.eqb (typeof newValue) "string") then stringify newValue
  else Ok (ToString newValue).

(** Lines 85-92 of [set]: encode, write, update the held value. *)
Definition set_rest (key : string) (newValue : ref) : M S unit :=
  transformedNewValue <- lift (transform (val newValue)) ;;
  storage_setItem key transformedNewValue ;;;
  next <- (if raw resolve then ret newValue
           else v <- lift (deserializer resolve transformedNewValue) ;; fresh v) ;;
  setStoredObject next.

(** The [try] block of [set]. *)
Definition set_try (key : string) (valueOrFunction : setStateAction) : M S unit :=
  newValue <- match valueOrFunction with
              | Updater f => held <- getStoredObject ;; lift (f held)
              | Value v => ret v
              end ;;
  if String.eqb (typeof (val newValue)) "undefined" then ret tt
  else set_rest key newValue.

Definition set (key : string) (valueOrFunction : setStateAction) : M S unit :=
  tryCatch (set_try key valueOrFunction) callOnThrow.

Definition remove (key : string) : M S unit :=
  tryCatch (storage_removeItem key ;;; setStoredObject undefined) callOnThrow.

Definition keyError : error := Error "Error" "useStorage key may not be falsy".

(** One render of the hook: the guard on the key, [useState] (whose
    initializer runs on the first render only), the [console.log], and
    the held value it returns.  The layout effect, [reconcile], runs
    after the render. *)
Definition useStorage (firstRender : bool) (key : value) : M S ref :=
  if negb (truthy key) then throw keyError
  else
    (if firstRender then
       first <- initializer (ToString key) ;;
       setStoredObject first
     else ret tt) ;;;
    held <- getStoredObject ;;
    record (ConsoleLog (val held)) ;;;
    ret held.

(** *** Where a run can fail *)

(** The ways the [try] block of [initializer] throws [e] from a storage
    in state [st]. *)
Inductive initializerFailure (st : S) (key : string) (e : error) : Prop :=
| ReadThrows :
    getItem storage st key = Throw e ->
    initializerFailure st key e
| DeserializerThrows (text : string) :
    getItem storage st key = Ok (Some text) ->
    deserializer resolve text = Throw e ->
    initializerFailure st key e
| SerializerThrows :
    getItem storage st key = Ok None ->
    truthy (val initialValue) = true ->
    serializer resolve (val initialValue) = Throw e ->
    initializerFailure st key e
| WriteThrows (text : string) :
    getItem storage st key = Ok None ->
    truthy (val initialValue) = true ->
    serializer resolve (val initialValue) = Ok text ->
    setItem storage st key text = Throw e ->
    initializerFailure st key e.

(** [newValue] is what step 1 of [set] computes from the held value. *)
Definition produces (valueOrFunction : setStateAction) (held newValue : ref) : Prop :=
  match valueOrFunction with
  | Value v => newValue = v
  | Updater f => f held = Ok newValue
  end.

Inductive setStep : Type := AtUpdater | AtSerializer | AtWrite | AtDeserializer.

(** The ways the [try] block of [set] throws [e], by the step that throws. *)
Inductive setFailure (w : world S) (key : string) (valueOrFunction : setStateAction)
          (e : error) : setStep -> Prop :=
| UpdaterFails (f : ref -> result ref) :
    valueOrFunction = Updater f ->
    f (storedObject w) = Throw e ->
    setFailure w key valueOrFunction e AtUpdater
| SerializerFails (newValue : ref) :
    produces valueOrFunction (storedObject w) newValue ->
    val newValue <> VUndefined ->
    transform (val newValue) = Throw e ->
    setFailure w key valueOrFunction e AtSerializer
| WriteFails (newValue : ref) (text : string) :
    produces valueOrFunction (storedObject w) newValue ->
    val newValue <> VUndefined ->
    transform (val newValue) = Ok text ->
    setItem storage (store w) key text = Throw e ->
    setFailure w key valueOrFunction e AtWrite
| DeserializerFails (newValue : ref) (text : string) (st : S) :
    produces valueOrFunction (storedObject w) newValue ->
    val newValue <> VUndefined ->
    transform (val newValue) = Ok text ->
    setItem storage (store w) key text = Ok st ->
    raw resolve = false ->
    deserializer resolve text = Throw e ->
    setFailure w key valueOrFunction e AtDeserializer.

(** The handler, when there is one, returns on [e]. *)
Definition handlerReturns (e : error) : Prop :=
  forall handler, onThrow resolve = Some handler -> handler e = Ok tt.

(** The last call recorded is [onThrow(e)], when there is a handler. *)
Definition forwarded (e : error) (w : world S) : Prop :=
  forall handler, onThrow resolve = Some handler -> last (calls w) = Some (OnThrow e).

(** ** Properties *)

Ltac run :=
  unfold reconcile, useStorage, initializer, initializer_try, set, set_try, set_rest, remove;
  unfold storage_getItem, storage_setItem, storage_removeItem, callOnThrow;
  unfold tryCatch, bind, record, fresh, lift, ret, throw,
    getStoredObject, setStoredObject;
  simpl.

(** [typeof v === 'undefined'] holds of [undefined] only. *)
Lemma typeof_undefined (v : value) :
  String.eqb (typeof v) "undefined" = true <-> v = VUndefined.
Proof. destruct v; simpl; split; intro H; try reflexivity; discriminate. Qed.

Lemma typeof_defined (v : value) :
  v <> VUndefined -> String.eqb (typeof v) "undefined" = false.
Proof.
  intro H. destruct (String.eqb (typeof v) "undefined") eqn:E; [|reflexivity].
  apply typeof_undefined in E. contradiction.
Qed.

(** C8. A falsy key (the empty string, null, undefined, and the other
    falsy values) makes the render throw the key error at once: the
    exception leaves the hook, and the world is untouched: no storage
    call, no [onThrow] call, no change of the held value. *)
Theorem useStorage_falsy_key_throws (firstRender : bool) (key : value) (w : world S) :
  truthy key = false ->
  useStorage firstRender key w = (w, Throw keyError).
Proof. intro H. unfold useStorage. rewrite H. reflexivity. Qed.

(** What the initializer does when it finds a text that deserializes. *)
Lemma initializer_reads_stored (key : string) (w : world S) (text : string) (v : value) :
  getItem storage (store w) key = Ok (Some text) ->
  deserializer resolve text = Ok v ->
  initializer key w =
    (World (store w) (storedObject w) (Datatypes.S (nextAddr w)) (calls w ++ [GetItem key]),
     Ok (Ref (nextAddr w) v)).
Proof. intros Hget Hde. run. rewrite Hget, Hde. reflexivity. Qed.

(** C6. A text found under the key is deserialized and returned; the run
    makes one call, the [getItem], and so no write: the storage is as it
    was and no [SetItem] is among the calls, whatever [initialValue] is. *)
Theorem initializer_prefers_stored (key : string) (w : world S) (text : string) (v : value) :
  getItem storage (store w) key = Ok (Some text) ->
  deserializer resolve text = Ok v ->
  let run := initializer key w in
  snd run = Ok (Ref (nextAddr w) v)
  /\ store (fst run) = store w
  /\ calls (fst run) = calls w ++ [GetItem key]
  /\ (forall text', ~ In (SetItem key text') (calls w) ->
                    ~ In (SetItem key text') (calls (fst run))).
Proof.
  intros Hget Hde run. subst run.
  rewrite (initializer_reads_stored key w text v Hget Hde). simpl.
  repeat split. intros text' Hnot Hin. apply in_app_or in Hin.
  destruct Hin as [Hin | [Hin | []]]; [exact (Hnot Hin) | discriminate Hin].
Qed.

(** The catch clause, once the handler is known to return. *)
Lemma callOnThrow_returns (e : error) (w : world S) :
  handlerReturns e ->
  exists w', callOnThrow e w = (w', Ok tt)
             /\ forwarded e w'
             /\ storedObject w' = storedObject w
             /\ store w' = store w.
Proof.
  intro Hh. unfold callOnThrow, forwarded, handlerReturns in *.
  destruct (onThrow resolve) as [handler|].
  - run. rewrite (Hh handler eq_refl). eexists. split; [reflexivity|].
    simpl. repeat split. intros _ _. apply last_snoc.
  - exists w. repeat split. intros h Hsome. discriminate Hsome.
Qed.

(** C7. Whatever step of the initialization throws (the read, the
    deserializer, the serializer, the write), the initializer catches the
    error, hands it to [onThrow] when there is one, and returns
    [initialValue]; the storage and the held value are as before. *)
Theorem initializer_failure_falls_back (key : string) (w : world S) (e : error) :
  initializerFailure (store w) key e ->
  handlerReturns e ->
  exists w', initializer key w = (w', Ok initialValue)
             /\ forwarded e w'
             /\ storedObject w' = storedObject w
             /\ store w' = store w.
Proof.
  intros Hfail Hh.
  assert (Hcatch : forall w0, store w0 = store w -> storedObject w0 = storedObject w ->
            exists w', (callOnThrow e ;;; ret initialValue) w0 = (w', Ok initialValue)
                       /\ forwarded e w' /\ storedObject w' = storedObject w
                       /\ store w' = store w).
  { intros w0 Hst Hheld.
    destruct (callOnThrow_returns e w0 Hh) as (w' & Hrun & Hfw & Hheld' & Hst').
    exists w'. unfold bind. rewrite Hrun. unfold ret.
    repeat split; [exact Hfw | congruence | congruence]. }
  unfold initializer, tryCatch.
  destruct Hfail as [Hget | text Hget Hde | Hget Htruthy Hser | text Hget Htruthy Hser Hset].
  - replace (initializer_try key w)
      with (World (store w) (storedObject w) (nextAddr w) (calls w ++ [GetItem key]),
            @Throw ref e) by (run; rewrite Hget; reflexivity).
    apply Hcatch; reflexivity.
  - replace (initializer_try key w)
      with (World (store w) (storedObject w) (nextAddr w) (calls w ++ [GetItem key]),
            @Throw ref e) by (run; rewrite Hget, Hde; reflexivity).
    apply Hcatch; reflexivity.
  - replace (initializer_try key w)
      with (World (store w) (storedObject w) (nextAddr w) (calls w ++ [GetItem key]),
            @Throw ref e) by (run; rewrite Hget, Htruthy, Hser; reflexivity).
    apply Hcatch; reflexivity.
  - replace (initializer_try key w)
      with (World (store w) (storedObject w) (nextAddr w)
                  ((calls w ++ [GetItem key]) ++ [SetItem key text]),
            @Throw ref e) by (run; rewrite Hget, Htruthy, Hser; simpl; rewrite Hset; reflexivity).
    apply Hcatch; reflexivity.
Qed.

(** The failure cases are all there are: the [try] block of the
    initializer throws exactly in the four ways listed. *)
Lemma initializer_try_throws (key : string) (w : world S) (e : error) :
  snd (initializer_try key w) = Throw e <-> initializerFailure (store w) key e.
Proof.
  split.
  - run. destruct (getItem storage (store w) key) as [[text|]|e0] eqn:Hget; simpl.
    + destruct (deserializer resolve text) as [v|e0] eqn:Hde; simpl; [discriminate|].
      intros [= ->]. eapply DeserializerThrows; eassumption.
    + destruct (truthy (val initialValue)) eqn:Htruthy; simpl; [|discriminate].
      destruct (serializer resolve (val initialValue)) as [text|e0] eqn:Hser; simpl.
      * destruct (setItem storage (store w) key text) as [st|e0] eqn:Hset; simpl; [discriminate|].
        intros [= ->]. eapply WriteThrows; eassumption.
      * intros [= ->]. apply SerializerThrows; assumption.
    + intros [= ->]. apply ReadThrows; assumption.
  - intros [Hget | text Hget Hde | Hget Htruthy Hser | text Hget Htruthy Hser Hset]; run.
    + rewrite Hget. reflexivity.
    + rewrite Hget, Hde. reflexivity.
    + rewrite Hget, Htruthy, Hser. reflexivity.
    + rewrite Hget, Htruthy, Hser. simpl. rewrite Hset. reflexivity.
Qed.

(** A [try] whose catch clause is [onThrow?.(error)] returns. *)
Lemma tryCatch_returns {A : Type} (body : M S A) (handler : error -> M S A) (w : world S) :
  (forall e w0, returns (snd (handler e w0)) = true) ->
  returns (snd (tryCatch body handler w)) = true.
Proof.
  intro Hcatch. unfold tryCatch.
  destruct (body w) as [w' [a|e]]; [reflexivity | apply Hcatch].
Qed.

Lemma callOnThrow_quiet (e : error) (w : world S) :
  (forall e', handlerReturns e') -> snd (callOnThrow e w) = Ok tt.
Proof.
  intro Hh. destruct (callOnThrow_returns e w (Hh e)) as (w' & -> & _). reflexivity.
Qed.

(** C9. No failure in [initializer], [set] or [remove] reaches the
    caller: each of the three returns, whatever the storage, the parsers
    and the updater do, as long as the handler itself returns when there
    is one; with no [onThrow] in the options that is always so. *)
Theorem failures_never_reach_caller
        (key : string) (valueOrFunction : setStateAction) (w : world S) :
  (forall e, handlerReturns e) ->
  returns (snd (initializer key w)) = true
  /\ returns (snd (set key valueOrFunction w)) = true
  /\ returns (snd (remove key w)) = true.
Proof.
  intro Hh. repeat split; apply tryCatch_returns; intros e w0.
  - unfold bind. destruct (callOnThrow_returns e w0 (Hh e)) as (w' & -> & _). reflexivity.
  - rewrite (callOnThrow_quiet e w0 Hh). reflexivity.
  - rewrite (callOnThrow_quiet e w0 Hh). reflexivity.
Qed.

(** No handler is a handler that returns. *)
Lemma no_handler_returns (e : error) : onThrow resolve = None -> handlerReturns e.
Proof. intros Hnone handler Hsome. congruence. Qed.

(** C2, as the code has it.  When the storage has no entry under the key:
    a truthy [initialValue] is serialized, written under the key and
    returned; with no [initialValue] the initializer returns [undefined]
    and writes nothing. *)
Theorem initializer_seeds_truthy_initialValue (key : string) (w : world S) :
  getItem storage (store w) key = Ok None ->
  (forall (text : string) (st : S),
      truthy (val initialValue) = true ->
      serializer resolve (val initialValue) = Ok text ->
      setItem storage (store w) key text = Ok st ->
      initializer key w =
        (World st (storedObject w) (nextAddr w) (calls w ++ [GetItem key; SetItem key text]),
         Ok initialValue))
  /\ (val initialValue = VUndefined ->
      initializer key w =
        (World (store w) (storedObject w) (nextAddr w) (calls w ++ [GetItem key]),
         Ok initialValue)).
Proof.
  intro Hget. split.
  - intros text st Htruthy Hser Hset. run.
    rewrite Hget, Htruthy, Hser. simpl. rewrite Hset. simpl.
    rewrite <- app_assoc. reflexivity.
  - intro Hundef. run. rewrite Hget, Hundef. reflexivity.
Qed.

(** In raw mode the parsers are the raw ones. *)
Lemma raw_parsers :
  raw resolve = true ->
  serializer resolve = defaultRawOptions_serializer
  /\ deserializer resolve = defaultRawOptions_deserializer.
Proof.
  unfold resolve. destruct options as [[h [|ser de]]|]; simpl; intro H;
    try discriminate; split; reflexivity.
Qed.

(** A falsy [initialValue] (undefined, null, false, 0, the empty string)
    is returned and not written. *)
Lemma initializer_falsy_writes_nothing (key : string) (w : world S) :
  getItem storage (store w) key = Ok None ->
  truthy (val initialValue) = false ->
  initializer key w =
    (World (store w) (storedObject w) (nextAddr w) (calls w ++ [GetItem key]),
     Ok initialValue).
Proof. intros Hget Hfalsy. run. rewrite Hget, Hfalsy. reflexivity. Qed.

(** In raw mode a truthy [initialValue] is written as [String] makes it. *)
Lemma raw_initializer_writes_ToString (key : string) (w : world S) (st : S) :
  raw resolve = true ->
  getItem storage (store w) key = Ok None ->
  truthy (val initialValue) = true ->
  setItem storage (store w) key (ToString (val initialValue)) = Ok st ->
  initializer key w =
    (World st (storedObject w) (nextAddr w)
           (calls w ++ [GetItem key; SetItem key (ToString (val initialValue))]),
     Ok initialValue).
Proof.
  intros Hraw Hget Htruthy Hset. run. rewrite Hget, Htruthy.
  destruct (raw_parsers Hraw) as [-> _]. simpl. rewrite Hset. simpl.
  rewrite <- app_assoc. reflexivity.
Qed.

(** The initializer never touches the held value. *)
Lemma initializer_keeps_storedObject (key : string) (w : world S) :
  storedObject (fst (initializer key w)) = storedObject w.
Proof.
  run.
  destruct (getItem storage (store w) key) as [[text|]|e]; simpl.
  - destruct (deserializer resolve text); simpl; [reflexivity|].
    destruct (onThrow resolve) as [h|]; simpl; [destruct (h e)|]; reflexivity.
  - destruct (truthy (val initialValue)); simpl; [|reflexivity].
    destruct (serializer resolve (val initialValue)) as [text|e]; simpl.
    + destruct (setItem storage (store w) key text) as [st|e]; simpl; [reflexivity|].
      destruct (onThrow resolve) as [h|]; simpl; [destruct (h e)|]; reflexivity.
    + destruct (onThrow resolve) as [h|]; simpl; [destruct (h e)|]; reflexivity.
  - destruct (onThrow resolve) as [h|]; simpl; [destruct (h e)|]; reflexivity.
Qed.

(** One reconciliation that finds the fresh value deep-equal to the held
    one is the initialization and nothing more. *)
Lemma reconcile_equal (key : string) (w w' : world S) (newValue : ref) :
  initializer key w = (w', Ok newValue) ->
  isDeepEqual (val newValue) (val (storedObject w)) = true ->
  reconcile key w = (w', Ok tt).
Proof.
  intros Hinit Heq.
  pose proof (initializer_keeps_storedObject key w) as Hheld.
  rewrite Hinit in Hheld. simpl in Hheld.
  unfold reconcile, bind. rewrite Hinit.
  unfold getStoredObject. rewrite Hheld, Heq. reflexivity.
Qed.

Lemma reconcile_equal_held (key : string) (w w' : world S) (newValue : ref) :
  initializer key w = (w', Ok newValue) ->
  isDeepEqual (val newValue) (val (storedObject w)) = true ->
  storedObject (fst (reconcile key w)) = storedObject w.
Proof.
  intros Hinit Heq.
  rewrite (reconcile_equal key w w' newValue Hinit Heq). simpl.
  pose proof (initializer_keeps_storedObject key w) as Hheld.
  rewrite Hinit in Hheld. exact Hheld.
Qed.

(** With an entry under the key that deserializes, and a deep equality
    that holds of the value read and itself, two reconciliations in a row
    expose one and the same reference. *)
Lemma reconcile_twice_memoizes (key : string) (w : world S) (text : string) (v : value) :
  getItem storage (store w) key = Ok (Some text) ->
  deserializer resolve text = Ok v ->
  isDeepEqual v v = true ->
  let w1 := fst (reconcile key w) in
  storedObject (fst (reconcile key w1)) = storedObject w1.
Proof.
  intros Hget Hde Hrefl w1.
  assert (Hw1 : store w1 = store w
                /\ (storedObject w1 = storedObject w
                    /\ isDeepEqual v (val (storedObject w)) = true
                    \/ storedObject w1 = Ref (nextAddr w) v)).
  { subst w1. unfold reconcile, bind.
    rewrite (initializer_reads_stored key w text v Hget Hde).
    unfold getStoredObject. simpl.
    destruct (isDeepEqual v (val (storedObject w))) eqn:Heq; simpl; auto. }
  destruct Hw1 as [Hst Hheld].
  assert (Hget1 : getItem storage (store w1) key = Ok (Some text)) by (rewrite Hst; exact Hget).
  eapply reconcile_equal_held.
  - apply (initializer_reads_stored key w1 text v Hget1 Hde).
  - simpl. destruct Hheld as [[-> Heq] | ->]; [exact Heq | exact Hrefl].
Qed.

(** A reconciliation that finds a text under the key ends holding its
    deserialization: the reference it held, or a fresh one. *)
Lemma reconcile_stored_value (key : string) (w : world S) (text : string) (v : value) :
  getItem storage (store w) key = Ok (Some text) ->
  deserializer resolve text = Ok v ->
  storedObject (fst (reconcile key w)) =
    if isDeepEqual v (val (storedObject w)) then storedObject w else Ref (nextAddr w) v.
Proof.
  intros Hget Hde. unfold reconcile, bind.
  rewrite (initializer_reads_stored key w text v Hget Hde).
  unfold getStoredObject. simpl.
  destruct (isDeepEqual v (val (storedObject w))); reflexivity.
Qed.






(** A [set] that goes through, in structured mode. *)
Lemma set_structured (key : string) (v : ref) (w : world S) (text : string) (st : S) (d : value) :
  raw resolve = false ->
  val v <> VUndefined ->
  serializer resolve (val v) = Ok text ->
  setItem storage (store w) key text = Ok st ->
  deserializer resolve text = Ok d ->
  set key (Value v) w =
    (World st (Ref (nextAddr w) d) (Datatypes.S (nextAddr w)) (calls w ++ [SetItem key text]),
     Ok tt).
Proof.
  intros Hraw Hdef Hser Hset Hde. run. unfold transform.
  rewrite (typeof_defined _ Hdef), Hraw. simpl.
  rewrite Hser. simpl. rewrite Hset. simpl. rewrite Hde. reflexivity.
Qed.

(** C5. In structured mode, a [set(v)] whose serialization and write go
    through leaves [deserializer(serializer(v))] as the held value, at a
    fresh address (not [v] itself); and when that value is deep-equal to
    [v] and the storage gives back what was written, the value held after
    the next reconciliation is deep-equal to [v]. *)
Theorem set_holds_round_trip
        (key : string) (v : ref) (w : world S) (text : string) (st : S) (d : value) :
  raw resolve = false ->
  val v <> VUndefined ->
  serializer resolve (val v) = Ok text ->
  setItem storage (store w) key text = Ok st ->
  deserializer resolve text = Ok d ->
  let w1 := fst (set key (Value v) w) in
  storedObject w1 = Ref (nextAddr w) d
  /\ (getItem storage st key = Ok (Some text) ->
      isDeepEqual d (val v) = true ->
      val (storedObject (fst (reconcile key w1))) = d
      /\ isDeepEqual (val (storedObject (fst (reconcile key w1)))) (val v) = true).
Proof.
  intros Hraw Hdef Hser Hset Hde w1. subst w1.
  rewrite (set_structured key v w text st d Hraw Hdef Hser Hset Hde). simpl.
  split; [reflexivity|]. intros Hget Hround.
  pose (w1 := World st (Ref (nextAddr w) d) (Datatypes.S (nextAddr w))
                    (calls w ++ [SetItem key text])).
  pose proof (reconcile_stored_value key w1 text d Hget Hde) as Hrec.
  subst w1. rewrite Hrec. simpl.
  destruct (isDeepEqual d d); simpl; split; auto.
Qed.

(** C10. In raw mode, a [set(v)] of a defined value that is no string
    writes the JSON text of [v] and holds [v] itself.  A fresh read of the
    storage then yields that text as a string, which the held value is
    not; the next reconciliation, finding the two different, replaces the
    held value by the stored string. *)
Theorem raw_set_holds_value_not_text
        (key : string) (v : ref) (w : world S) (text : string) (st : S) :
  raw resolve = true ->
  val v <> VUndefined ->
  typeof (val v) <> "string" ->
  JSON_stringify (val v) = Some text ->
  setItem storage (store w) key text = Ok st ->
  let w1 := fst (set key (Value v) w) in
  set key (Value v) w =
    (World st v (nextAddr w) (calls w ++ [SetItem key text]), Ok tt)
  /\ (getItem storage st key = Ok (Some text) ->
      snd (initializer key w1) = Ok (Ref (nextAddr w) (VStr text))
      /\ val (storedObject w1) <> VStr text
      /\ (isDeepEqual (VStr text) (val v) = false ->
          storedObject (fst (reconcile key w1)) = Ref (nextAddr w) (VStr text))).
Proof.
  intros Hraw Hdef Hnostr Hjson Hset w1.
  assert (Hrun : set key (Value v) w =
            (World st v (nextAddr w) (calls w ++ [SetItem key text]), Ok tt)).
  { run. unfold transform, stringify.
    rewrite (typeof_defined _ Hdef), Hraw. simpl.
    destruct (String.eqb (typeof (val v)) "string") eqn:Hty.
    - apply String.eqb_eq in Hty. contradiction.
    - simpl. rewrite Hjson. simpl. rewrite Hset. destruct v; reflexivity. }
  split; [exact Hrun|]. intro Hget. subst w1. rewrite Hrun. simpl.
  destruct (raw_parsers Hraw) as [_ Hde].
  assert (Hde' : deserializer resolve text = Ok (VStr text)) by (rewrite Hde; reflexivity).
  pose (w1 := World st v (nextAddr w) (calls w ++ [SetItem key text])).
  pose proof (initializer_reads_stored key w1 text (VStr text) Hget Hde') as Hinit.
  pose proof (reconcile_stored_value key w1 text (VStr text) Hget Hde') as Hrec.
  subst w1. repeat split.
  - rewrite Hinit. reflexivity.
  - intro Heq. rewrite Heq in Hnostr. apply Hnostr. reflexivity.
  - intro Hneq. rewrite Hrec. simpl. rewrite Hneq. reflexivity.
Qed.

(** Step 1 of [set]: once [newValue] is known, the rest is lines 83-92. *)
Lemma set_try_produces (key : string) (valueOrFunction : setStateAction)
      (w : world S) (newValue : ref) :
  produces valueOrFunction (storedObject w) newValue ->
  val newValue <> VUndefined ->
  set_try key valueOrFunction w = set_rest key newValue w.
Proof.
  intros Hprod Hdef. unfold set_try, bind.
  destruct valueOrFunction as [v|f]; simpl in Hprod.
  - subst v. unfold ret. rewrite (typeof_defined _ Hdef). reflexivity.
  - unfold getStoredObject, lift. rewrite Hprod. rewrite (typeof_defined _ Hdef). reflexivity.
Qed.

(** C1, as the code has it.  Whatever step of [set] throws, the error is
    caught and handed to [onThrow], [set] returns, and the held value is
    as before; when the step is the updater, the serializer or the write,
    the storage is as before too. *)
Theorem set_failure_contained
        (key : string) (valueOrFunction : setStateAction) (w : world S)
        (e : error) (step : setStep) :
  setFailure w key valueOrFunction e step ->
  handlerReturns e ->
  exists w', set key valueOrFunction w = (w', Ok tt)
             /\ forwarded e w'
             /\ storedObject w' = storedObject w
             /\ (step <> AtDeserializer -> store w' = store w).
Proof.
  intros Hfail Hh.
  assert (Hcatch : forall w0, storedObject w0 = storedObject w ->
            set_try key valueOrFunction w = (w0, Throw e) ->
            exists w', set key valueOrFunction w = (w', Ok tt)
                       /\ forwarded e w' /\ storedObject w' = storedObject w
                       /\ store w' = store w0).
  { intros w0 Hheld Htry.
    destruct (callOnThrow_returns e w0 Hh) as (w' & Hrun & Hfw & Hheld' & Hst').
    exists w'. unfold set, tryCatch. rewrite Htry.
    repeat split; [exact Hrun | exact Hfw | congruence | exact Hst']. }
  destruct Hfail as [f Hact Hf
                    | newValue Hprod Hdef Htr
                    | newValue text Hprod Hdef Htr Hset
                    | newValue text st Hprod Hdef Htr Hset Hraw Hde].
  - assert (Htry : set_try key valueOrFunction w = (w, Throw e)).
    { subst valueOrFunction. run. rewrite Hf. reflexivity. }
    destruct (Hcatch w eq_refl Htry) as (w' & Hrun & Hfw & Hheld & Hst).
    exists w'. repeat split; try assumption. intros _. exact Hst.
  - assert (Htry : set_try key valueOrFunction w = (w, Throw e)).
    { rewrite (set_try_produces key _ w newValue Hprod Hdef).
      run. rewrite Htr. reflexivity. }
    destruct (Hcatch w eq_refl Htry) as (w' & Hrun & Hfw & Hheld & Hst).
    exists w'. repeat split; try assumption. intros _. exact Hst.
  - pose (w0 := World (store w) (storedObject w) (nextAddr w) (calls w ++ [SetItem key text])).
    assert (Htry : set_try key valueOrFunction w = (w0, Throw e)).
    { rewrite (set_try_produces key _ w newValue Hprod Hdef).
      run. rewrite Htr. simpl. rewrite Hset. reflexivity. }
    destruct (Hcatch w0 eq_refl Htry) as (w' & Hrun & Hfw & Hheld & Hst).
    exists w'. repeat split; try assumption. intros _. exact Hst.
  - pose (w0 := World st (storedObject w) (nextAddr w) (calls w ++ [SetItem key text])).
    assert (Htry : set_try key valueOrFunction w = (w0, Throw e)).
    { rewrite (set_try_produces key _ w newValue Hprod Hdef).
      run. rewrite Htr. simpl. rewrite Hset. simpl. rewrite Hraw. simpl.
      rewrite Hde. reflexivity. }
    destruct (Hcatch w0 eq_refl Htry) as (w' & Hrun & Hfw & Hheld & Hst).
    exists w'. repeat split; try assumption. intro Hne. contradiction.
Qed.

(** The failure cases are all there are: the [try] block of [set] throws
    exactly in the four ways listed. *)
Lemma set_try_throws (key : string) (valueOrFunction : setStateAction)
      (w : world S) (e : error) :
  snd (set_try key valueOrFunction w) = Throw e ->
  exists step, setFailure w key valueOrFunction e step.
Proof.
  assert (Hrest : forall newValue : ref,
            produces valueOrFunction (storedObject w) newValue ->
            snd ((if String.eqb (typeof (val newValue)) "undefined" then ret tt
                  else set_rest key newValue) w) = Throw e ->
            exists step, setFailure w key valueOrFunction e step).
  { intros newValue Hprod.
    destruct (String.eqb (typeof (val newValue)) "undefined") eqn:Hty; [discriminate|].
    assert (Hdef : val newValue <> VUndefined).
    { intro Hu. apply typeof_undefined in Hu. congruence. }
    run. destruct (transform (val newValue)) as [text|e0] eqn:Htr; simpl.
    - destruct (setItem storage (store w) key text) as [st|e0] eqn:Hset; simpl.
      + destruct (raw resolve) eqn:Hraw; simpl; [discriminate|].
        destruct (deserializer resolve text) as [d|e0] eqn:Hde; simpl; [discriminate|].
        intros [= ->]. exists AtDeserializer. eapply DeserializerFails; eassumption.
      + intros [= ->]. exists AtWrite. eapply WriteFails; eassumption.
    - intros [= ->]. exists AtSerializer. eapply SerializerFails; eassumption. }
  unfold set_try, bind. destruct valueOrFunction as [v|f].
  - unfold ret at 1. apply Hrest. reflexivity.
  - unfold getStoredObject, lift.
    destruct (f (storedObject w)) as [newValue|e0] eqn:Hf.
    + apply Hrest. exact Hf.
    + simpl. intros [= ->]. exists AtUpdater. eapply UpdaterFails; [reflexivity | exact Hf].
Qed.

(** ** Further properties of the hook *)

(** What the initializer does on an absent entry and a truthy
    [initialValue] whose serialization and write go through. *)
Lemma initializer_writes_truthy (key : string) (w : world S) (text : string) (st : S) :
  getItem storage (store w) key = Ok None ->
  truthy (val initialValue) = true ->
  serializer resolve (val initialValue) = Ok text ->
  setItem storage (store w) key text = Ok st ->
  initializer key w =
    (World st (storedObject w) (nextAddr w) (calls w ++ [GetItem key; SetItem key text]),
     Ok initialValue).
Proof.
  intros Hget Htruthy Hser Hset. run.
  rewrite Hget, Htruthy, Hser. simpl. rewrite Hset. simpl.
  rewrite <- app_assoc. reflexivity.
Qed.

(** The [try] block of the initializer leaves the held value and, when
    it throws, the storage as they were. *)
Lemma initializer_try_failure (key : string) (w : world S) (e : error) :
  initializerFailure (store w) key e ->
  exists w0, initializer_try key w = (w0, Throw e)
             /\ storedObject w0 = storedObject w
             /\ store w0 = store w
             /\ nextAddr w0 = nextAddr w.
Proof.
  intros [Hget | text Hget Hde | Hget Htruthy Hser | text Hget Htruthy Hser Hset];
    eexists; (split; [run|]).
  - rewrite Hget. reflexivity.
  - repeat split.
  - rewrite Hget, Hde. reflexivity.
  - repeat split.
  - rewrite Hget, Htruthy, Hser. reflexivity.
  - repeat split.
  - rewrite Hget, Htruthy, Hser. simpl. rewrite Hset. reflexivity.
  - repeat split.
Qed.

Lemma initializer_failure_result (key : string) (w : world S) (e : error) :
  initializerFailure (store w) key e ->
  handlerReturns e ->
  exists w', initializer key w = (w', Ok initialValue)
             /\ storedObject w' = storedObject w
             /\ store w' = store w
             /\ nextAddr w' = nextAddr w.
Proof.
  intros Hfail Hh.
  destruct (initializer_try_failure key w e Hfail) as (w0 & Htry & Hheld & Hst & Hnext).
  unfold initializer, tryCatch. rewrite Htry. unfold bind.
  unfold callOnThrow. unfold handlerReturns in Hh.
  destruct (onThrow resolve) as [handler|].
  - run. rewrite (Hh handler eq_refl). eexists. split; [reflexivity|].
    simpl. repeat split; assumption.
  - exists w0. repeat split; assumption.
Qed.

(** X1. A [set] whose new value is [undefined] (given as such, or
    returned by the updater) does nothing at all: no storage call, no
    [onThrow], the held value and the storage as before. *)
Theorem set_undefined_is_noop
        (key : string) (valueOrFunction : setStateAction) (w : world S) (newValue : ref) :
  produces valueOrFunction (storedObject w) newValue ->
  val newValue = VUndefined ->
  set key valueOrFunction w = (w, Ok tt).
Proof.
  intros Hprod Hundef. unfold set, tryCatch, set_try, bind.
  destruct valueOrFunction as [v|f]; simpl in Hprod.
  - subst v. unfold ret. rewrite Hundef. reflexivity.
  - unfold getStoredObject, lift. rewrite Hprod, Hundef. reflexivity.
Qed.

(** X2. When [removeItem] throws, [remove] catches the error, hands it to
    [onThrow] and returns; the held value is not cleared and the storage
    is as before. *)
Theorem remove_failure_contained (key : string) (w : world S) (e : error) :
  removeItem storage (store w) key = Throw e ->
  handlerReturns e ->
  exists w', remove key w = (w', Ok tt)
             /\ forwarded e w'
             /\ storedObject w' = storedObject w
             /\ store w' = store w.
Proof.
  intros Hrm Hh.
  pose (w0 := World (store w) (storedObject w) (nextAddr w) (calls w ++ [RemoveItem key])).
  destruct (callOnThrow_returns e w0 Hh) as (w' & Hrun & Hfw & Hheld & Hst).
  exists w'. split; [|repeat split; assumption].
  unfold remove, tryCatch.
  replace ((storage_removeItem key ;;; setStoredObject undefined) w)
    with (w0, @Throw unit e) by (run; rewrite Hrm; reflexivity).
  exact Hrun.
Qed.

(** X3. A [remove] does not last when an [initialValue] is declared: it
    deletes the entry and clears the held value, and the next
    reconciliation, finding no entry, writes [initialValue] back and holds
    it again. *)
Theorem remove_then_reconcile_reseeds
        (key : string) (w : world S) (st st' : S) (text : string) :
  removeItem storage (store w) key = Ok st ->
  getItem storage st key = Ok None ->
  truthy (val initialValue) = true ->
  serializer resolve (val initialValue) = Ok text ->
  setItem storage st key text = Ok st' ->
  isDeepEqual (val initialValue) VUndefined = false ->
  let w1 := fst (remove key w) in
  let w2 := fst (reconcile key w1) in
  storedObject w1 = undefined /\ store w1 = st
  /\ storedObject w2 = initialValue /\ store w2 = st'.
Proof.
  intros Hrm Hget Htruthy Hser Hset Hneq w1 w2.
  assert (Hw1 : w1 = World st undefined (nextAddr w) (calls w ++ [RemoveItem key])).
  { subst w1. run. rewrite Hrm. reflexivity. }
  subst w2. rewrite Hw1. simpl. repeat split.
  - unfold reconcile, bind.
    pose (wr := World st undefined (nextAddr w) (calls w ++ [RemoveItem key])).
    pose proof (initializer_writes_truthy key wr text st' Hget Htruthy Hser Hset) as Hinit.
    subst wr. rewrite Hinit. unfold getStoredObject. simpl. rewrite Hneq. reflexivity.
  - unfold reconcile, bind.
    pose (wr := World st undefined (nextAddr w) (calls w ++ [RemoveItem key])).
    pose proof (initializer_writes_truthy key wr text st' Hget Htruthy Hser Hset) as Hinit.
    subst wr. rewrite Hinit. unfold getStoredObject. simpl. rewrite Hneq. reflexivity.
Qed.

(** X4. A change of the entry made elsewhere (or a change of key) shows
    at the next reconciliation: when the text under the key deserializes
    to a value that is not deep-equal to the held one, the held value
    becomes that value, at a fresh address, and nothing is written. *)
Theorem reconcile_adopts_changed_entry
        (key : string) (w : world S) (text : string) (v : value) :
  getItem storage (store w) key = Ok (Some text) ->
  deserializer resolve text = Ok v ->
  isDeepEqual v (val (storedObject w)) = false ->
  reconcile key w =
    (World (store w) (Ref (nextAddr w) v) (Datatypes.S (nextAddr w)) (calls w ++ [GetItem key]),
     Ok tt).
Proof.
  intros Hget Hde Hneq. unfold reconcile, bind.
  rewrite (initializer_reads_stored key w text v Hget Hde).
  unfold getStoredObject. simpl. rewrite Hneq. reflexivity.
Qed.

(** X5. A reconciliation whose initialization fails does not keep the
    held value: the initializer falls back to [initialValue], and unless
    that is deep-equal to the held value it replaces it. *)
Theorem reconcile_failure_resets_to_initialValue (key : string) (w : world S) (e : error) :
  initializerFailure (store w) key e ->
  handlerReturns e ->
  isDeepEqual (val initialValue) (val (storedObject w)) = false ->
  snd (reconcile key w) = Ok tt
  /\ storedObject (fst (reconcile key w)) = initialValue
  /\ store (fst (reconcile key w)) = store w.
Proof.
  intros Hfail Hh Hneq.
  destruct (initializer_failure_result key w e Hfail Hh) as (w' & Hinit & Hheld & Hst & _).
  unfold reconcile, bind. rewrite Hinit. unfold getStoredObject.
  rewrite Hheld, Hneq. simpl. repeat split. exact Hst.
Qed.

(** X6. In raw mode a string goes through as it is: [set(s)] writes [s]
    itself (no quoting) and holds it, a fresh read of the storage yields
    the same string, and a reconciliation that finds the two deep-equal
    keeps the held reference. *)
Theorem raw_set_string_round_trip
        (key : string) (v : ref) (w : world S) (s : string) (st : S) :
  raw resolve = true ->
  val v = VStr s ->
  setItem storage (store w) key s = Ok st ->
  getItem storage st key = Ok (Some s) ->
  let w1 := fst (set key (Value v) w) in
  set key (Value v) w = (World st v (nextAddr w) (calls w ++ [SetItem key s]), Ok tt)
  /\ snd (initializer key w1) = Ok (Ref (nextAddr w) (VStr s))
  /\ (isDeepEqual (VStr s) (VStr s) = true -> storedObject (fst (reconcile key w1)) = v).
Proof.
  intros Hraw Hval Hset Hget w1.
  assert (Hrun : set key (Value v) w =
            (World st v (nextAddr w) (calls w ++ [SetItem key s]), Ok tt)).
  { run. unfold transform. rewrite Hval, Hraw. simpl. rewrite Hset. reflexivity. }
  destruct (raw_parsers Hraw) as [_ Hde].
  assert (Hde' : deserializer resolve s = Ok (VStr s)) by (rewrite Hde; reflexivity).
  pose (wr := World st v (nextAddr w) (calls w ++ [SetItem key s])).
  pose proof (initializer_reads_stored key wr s (VStr s) Hget Hde') as Hinit.
  pose proof (reconcile_stored_value key wr s (VStr s) Hget Hde') as Hrec.
  subst wr w1. rewrite Hrun. simpl. repeat split.
  - rewrite Hinit. reflexivity.
  - intro Heq. rewrite Hrec. simpl. rewrite Hval, Heq. reflexivity.
Qed.

(** X7. In structured mode the value held after a [set] that goes
    through is the value a fresh read of the storage yields. *)
Theorem set_structured_matches_fresh_read
        (key : string) (v : ref) (w : world S) (text : string) (st : S) (d : value) :
  raw resolve = false ->
  val v <> VUndefined ->
  serializer resolve (val v) = Ok text ->
  setItem storage (store w) key text = Ok st ->
  deserializer resolve text = Ok d ->
  getItem storage st key = Ok (Some text) ->
  let w1 := fst (set key (Value v) w) in
  exists read, snd (initializer key w1) = Ok read
               /\ val read = val (storedObject w1)
               /\ store (fst (initializer key w1)) = st.
Proof.
  intros Hraw Hdef Hser Hset Hde Hget w1. subst w1.
  rewrite (set_structured key v w text st d Hraw Hdef Hser Hset Hde). simpl.
  pose (wr := World st (Ref (nextAddr w) d) (Datatypes.S (nextAddr w))
                    (calls w ++ [SetItem key text])).
  pose proof (initializer_reads_stored key wr text d Hget Hde) as Hinit.
  subst wr. rewrite Hinit. simpl. eexists. repeat split.
Qed.

(** X8. The initializer never touches the held value, whatever the
    storage, the parsers and the handler do. *)
Theorem initializer_never_sets_state (key : string) (w : world S) :
  storedObject (fst (initializer key w)) = storedObject w.
Proof. apply initializer_keeps_storedObject. Qed.

(** X9. The initializer writes only to seed: when the key has an entry,
    or the read throws, or [initialValue] is falsy, the storage after the
    run is the storage before, and no [setItem] call is made. *)
Theorem initializer_writes_only_to_seed (key : string) (w : world S) :
  getItem storage (store w) key <> Ok None \/ truthy (val initialValue) = false ->
  store (fst (initializer key w)) = store w
  /\ (forall k text, In (SetItem k text) (calls (fst (initializer key w))) ->
                     In (SetItem k text) (calls w)).
Proof.
  intro Hcase.
  assert (Hin : forall (k text : string) (l : list call),
             (forall c, In c l -> forall k' t', c <> SetItem k' t') ->
             In (SetItem k text) (calls w ++ l) -> In (SetItem k text) (calls w)).
  { intros k text l Hl Hi. apply in_app_or in Hi. destruct Hi as [Hi | Hi]; [exact Hi|].
    exfalso. exact (Hl _ Hi k text eq_refl). }
  assert (H1 : forall c, In c [GetItem key] -> forall k' t', c <> SetItem k' t').
  { intros c [<- | []] k' t'. discriminate. }
  assert (H2 : forall e c, In c [GetItem key; OnThrow e] -> forall k' t', c <> SetItem k' t').
  { intros e c [<- | [<- | []]] k' t'; discriminate. }
  run. destruct (getItem storage (store w) key) as [[text|]|e] eqn:Hget; simpl.
  - destruct (deserializer resolve text) as [v|e]; simpl.
    + split; [reflexivity|]. intros k t. apply Hin. exact H1.
    + destruct (onThrow resolve) as [h|]; simpl.
      * rewrite <- app_assoc. simpl.
        destruct (h e); simpl; (split; [reflexivity|]); intros k t; apply Hin; apply H2.
      * split; [reflexivity|]. intros k t. apply Hin. exact H1.
  - destruct Hcase as [Hne | Hfalsy]; [exfalso; apply Hne; reflexivity|].
    rewrite Hfalsy. simpl. split; [reflexivity|]. intros k t. apply Hin. exact H1.
  - destruct (onThrow resolve) as [h|]; simpl.
    + rewrite <- app_assoc. simpl.
      destruct (h e); simpl; (split; [reflexivity|]); intros k t; apply Hin; apply H2.
    + split; [reflexivity|]. intros k t. apply Hin. exact H1.
Qed.

(** X10. The first render on a storage that cannot be read does not
    throw: the hook starts from [initialValue], with the storage
    untouched. *)
Theorem mount_on_unreadable_storage (key : value) (w : world S) (e : error) :
  truthy key = true ->
  getItem storage (store w) (ToString key) = Throw e ->
  handlerReturns e ->
  exists w', useStorage true key w = (w', Ok initialValue)
             /\ storedObject w' = initialValue
             /\ store w' = store w.
Proof.
  intros Hkey Hget Hh.
  destruct (initializer_failure_result (ToString key) w e (ReadThrows _ _ _ Hget) Hh)
    as (w0 & Hinit & _ & Hst & _).
  unfold useStorage, bind. rewrite Hkey. cbn [negb]. rewrite Hinit. simpl.
  unfold setStoredObject, getStoredObject, record, ret. simpl.
  eexists. split; [reflexivity|]. simpl. split; [reflexivity | exact Hst].
Qed.

(** X11. The first render on an empty storage followed by its layout
    effect: the render seeds the storage and holds [initialValue]; the
    effect reads the seed back, and keeps the very [initialValue] when the
    value read back is deep-equal to it, or else holds the value read
    back. *)
Theorem mount_then_effect
        (key : value) (w : world S) (text : string) (st : S) (d : value) :
  truthy key = true ->
  getItem storage (store w) (ToString key) = Ok None ->
  truthy (val initialValue) = true ->
  serializer resolve (val initialValue) = Ok text ->
  setItem storage (store w) (ToString key) text = Ok st ->
  getItem storage st (ToString key) = Ok (Some text) ->
  deserializer resolve text = Ok d ->
  let w1 := fst (useStorage true key w) in
  let w2 := fst (reconcile (ToString key) w1) in
  snd (useStorage true key w) = Ok initialValue
  /\ store w1 = st
  /\ storedObject w2 =
       (if isDeepEqual d (val initialValue) then initialValue else Ref (nextAddr w) d)
  /\ store w2 = st.
Proof.
  intros Hkey Hget Htruthy Hser Hset Hget' Hde w1 w2.
  assert (Hw1 : useStorage true key w =
            (World st initialValue (nextAddr w)
                   ((calls w ++ [GetItem (ToString key); SetItem (ToString key) text])
                      ++ [ConsoleLog (val initialValue)]),
             Ok initialValue)).
  { unfold useStorage, bind. rewrite Hkey. cbn [negb].
    rewrite (initializer_writes_truthy (ToString key) w text st Hget Htruthy Hser Hset).
    reflexivity. }
  subst w2 w1. rewrite Hw1. simpl.
  pose (wr := World st initialValue (nextAddr w)
                    ((calls w ++ [GetItem (ToString key); SetItem (ToString key) text])
                       ++ [ConsoleLog (val initialValue)])).
  pose proof (reconcile_stored_value (ToString key) wr text d Hget' Hde) as Hrec.
  assert (Hstore : store (fst (reconcile (ToString key) wr)) = st).
  { unfold reconcile, bind.
    rewrite (initializer_reads_stored (ToString key) wr text d Hget' Hde).
    unfold getStoredObject. simpl.
    destruct (isDeepEqual d (val initialValue)); reflexivity. }
  subst wr. repeat split; [exact Hrec | exact Hstore].
Qed.

(** X12. The catch clauses do not guard [onThrow] itself: when the
    handler throws, its exception leaves [initializer], [set] and
    [remove]. *)
Theorem handler_failure_escapes
        (key : string) (valueOrFunction : setStateAction) (w : world S)
        (handler : error -> result unit) (e e' : error) :
  onThrow resolve = Some handler ->
  handler e = Throw e' ->
  (snd (initializer_try key w) = Throw e -> snd (initializer key w) = Throw e')
  /\ (snd (set_try key valueOrFunction w) = Throw e ->
      snd (set key valueOrFunction w) = Throw e')
  /\ (removeItem storage (store w) key = Throw e -> snd (remove key w) = Throw e').
Proof.
  intros Hsome Hthrow.
  assert (Hcall : forall w0, snd (callOnThrow e w0) = Throw e').
  { intro w0. unfold callOnThrow. rewrite Hsome. run. rewrite Hthrow. reflexivity. }
  repeat split.
  - unfold initializer, tryCatch.
    destruct (initializer_try key w) as [w0 r]. simpl. intros ->.
    unfold bind. specialize (Hcall w0).
    destruct (callOnThrow e w0) as [w' r']. simpl in Hcall. subst r'. reflexivity.
  - unfold set, tryCatch.
    destruct (set_try key valueOrFunction w) as [w0 r]. simpl. intros ->. apply Hcall.
  - intro Hrm. unfold remove, tryCatch.
    replace ((storage_removeItem key ;;; setStoredObject undefined) w)
      with (World (store w) (storedObject w) (nextAddr w) (calls w ++ [RemoveItem key]),
            @Throw unit e) by (run; rewrite Hrm; reflexivity).
    apply Hcall.
Qed.

(** X13. In raw mode the serializer the initializer seeds with
    ([String]) and the encoding [set] applies return the same text for
    every string, boolean, null and safe integer (at most 2^53 - 1 in
    magnitude), and different texts for every object. *)
Theorem raw_seed_and_set_texts (v : value) :
  raw resolve = true ->
  ((exists s, v = VStr s) \/ (exists b, v = VBool b) \/ v = VNull
   \/ (exists n, v = VNum n /\ (Z.abs n <= 9007199254740991)%Z) ->
   serializer resolve v = transform v)
  /\ (forall fields, serializer resolve (VObj fields) <> transform (VObj fields)).
Proof.
  intro Hraw. destruct (raw_parsers Hraw) as [Hser _].
  unfold transform. rewrite Hser, Hraw. unfold defaultRawOptions_serializer, stringify.
  split.
  - intros [[s ->] | [[b ->] | [-> | (n & -> & _)]]]; reflexivity.
  - intros fields. simpl. discriminate.
Qed.

(** X14. With a truthy key, neither the render nor the layout effect
    throws, on any storage and any parsers, as long as the handler itself
    returns when there is one. *)
Theorem render_and_effect_return (firstRender : bool) (key : value) (w : world S) :
  truthy key = true ->
  (forall e, handlerReturns e) ->
  returns (snd (useStorage firstRender key w)) = true
  /\ returns (snd (reconcile (ToString key) w)) = true.
Proof.
  intros Hkey Hh.
  assert (Hinit : forall k w0, exists w' r, initializer k w0 = (w', Ok r)).
  { intros k w0.
    assert (Hret : returns (snd (initializer k w0)) = true).
    { apply tryCatch_returns. intros e w1. unfold bind.
      destruct (callOnThrow_returns e w1 (Hh e)) as (w' & -> & _). reflexivity. }
    destruct (initializer k w0) as [w' [r|e]]; simpl in Hret; [|discriminate].
    exists w', r. reflexivity. }
  split.
  - unfold useStorage, bind. rewrite Hkey. cbn [negb].
    destruct firstRender; [|reflexivity].
    destruct (Hinit (ToString key) w) as (w' & r & ->). reflexivity.
  - unfold reconcile, bind.
    destruct (Hinit (ToString key) w) as (w' & r & ->).
    unfold getStoredObject.
    destruct (isDeepEqual (val r) (val (storedObject w'))); reflexivity.
Qed.

End UseStorage.

(** ** The deep equality of the examples *)

Lemma deepEqual_types (a b : value) : typeof a <> typeof b -> deepEqual a b = false.
Proof. destruct a, b; simpl; intro H; try reflexivity; exfalso; apply H; reflexivity. Qed.

Lemma lookupField_In (k : string) (v : value) (fields : list (string * value)) :
  List.NoDup (map fst fields) -> In (k, v) fields -> lookupField k fields = Some v.
Proof.
  induction fields as [|[k' v'] rest IH]; simpl; intros Hnd Hin; [contradiction|].
  apply List.NoDup_cons_iff in Hnd. destruct Hnd as [Hnotin Hnd].
  destruct Hin as [Heq | Hin].
  - injection Heq as -> ->. rewrite String.eqb_refl. reflexivity.
  - destruct (String.eqb k' k) eqn:Hk.
    + apply String.eqb_eq in Hk. subst k'. exfalso. apply Hnotin.
      apply in_map_iff. exists (k, v). split; [reflexivity | exact Hin].
    + apply IH; assumption.
Qed.

Lemma deepEqual_refl : forall v : value, wellFormed v -> deepEqual v v = true.
Proof.
  fix IH 1. intros [| |b|n|s|elems|fields]; simpl; intro Hwf.
  - reflexivity.
  - reflexivity.
  - destruct b; reflexivity.
  - apply Z.eqb_refl.
  - apply String.eqb_refl.
  - induction elems as [|x xs IHxs]; [reflexivity|].
    destruct Hwf as [Hx Hxs]. rewrite (IH x Hx). simpl. exact (IHxs Hxs).
  - destruct Hwf as [Hnd Hall]. rewrite Nat.eqb_refl. simpl.
    assert (Hsub : forall sub : list (string * value),
               (forall kv, In kv sub -> In kv fields) ->
               (fix all (l : list (string * value)) : Prop :=
                  match l with
                  | [] => True
                  | kv :: l' => wellFormed (snd kv) /\ all l'
                  end) sub ->
               (fix every (fs : list (string * value)) : bool :=
                  match fs with
                  | [] => true
                  | (k, v) :: rest =>
                      match lookupField k fields with
                      | Some v' => deepEqual v v'
                      | None => false
                      end && every rest
                  end) sub = true).
    { induction sub as [|[k v] rest IHrest]; intros Hincl Hwf; [reflexivity|].
      destruct Hwf as [Hv Hrest].
      rewrite (lookupField_In k v fields Hnd (Hincl (k, v) (or_introl eq_refl))).
      rewrite (IH v Hv). simpl. apply IHrest; [|exact Hrest].
      intros kv Hin. apply Hincl. right. exact Hin. }
    apply Hsub; [auto | exact Hall].
Qed.

(** ** The storage of the examples *)

(** [memoryStorage] gives back what was written. *)
Lemma memoryStorage_get_set (st st' : gmap string string) (key text : string) :
  setItem memoryStorage st key text = Ok st' ->
  getItem memoryStorage st' key = Ok (Some text).
Proof. simpl. intros [= <-]. rewrite lookup_insert_eq. reflexivity. Qed.

Lemma memoryStorage_get_remove (st st' : gmap string string) (key : string) :
  removeItem memoryStorage st key = Ok st' ->
  getItem memoryStorage st' key = Ok None.
Proof. simpl. intros [= <-]. rewrite lookup_delete_eq. reflexivity. Qed.

(** On [memoryStorage], with the deep equality above, two
    reconciliations in a row over an entry that deserializes to a
    well-formed value expose one and the same reference. *)
Lemma memoryStorage_reconcile_memoizes
      (JSON_parse : string -> result value) (initialValue : ref)
      (options : option parserOptions) (key : string)
      (w : world (gmap string string)) (text : string) (v : value) :
  store w !! key = Some text ->
  deserializer (resolve JSON_parse options) text = Ok v ->
  wellFormed v ->
  let w1 := fst (reconcile JSON_parse deepEqual memoryStorage initialValue options key w) in
  storedObject (fst (reconcile JSON_parse deepEqual memoryStorage initialValue options key w1))
  = storedObject w1.
Proof.
  intros Hget Hde Hwf.
  apply (reconcile_twice_memoizes JSON_parse deepEqual memoryStorage initialValue options
           key w text v).
  - simpl. rewrite Hget. reflexivity.
  - exact Hde.
  - apply deepEqual_refl. exact Hwf.
Qed.

(** ** The properties at work *)

Lemma useStorage_falsy_key_throws_witness :
  useStorage jsonParse memoryStorage (Ref 0 (VStr "bar")) (rawOptions (Some quietHandler))
             true (VStr "") (start ∅)
  = (start ∅, Throw keyError).
Proof. apply useStorage_falsy_key_throws. reflexivity. Defined.

Lemma initializer_prefers_stored_witness :
  let run := initializer jsonParse (mockStorage (Some (quoteString "bar")))
                         (Ref 0 (VStr "baz")) None "foo" (start tt) in
  snd run = Ok (Ref 1 (VStr "bar"))
  /\ calls (fst run) = [GetItem "foo"].
Proof.
  destruct (initializer_prefers_stored jsonParse (mockStorage (Some (quoteString "bar")))
              (Ref 0 (VStr "baz")) None "foo" (start tt) (quoteString "bar") (VStr "bar"))
    as (Hval & _ & Hcalls & _); [reflexivity | reflexivity |].
  split; [exact Hval | exact Hcalls].
Defined.

Lemma initializer_failure_falls_back_witness :
  exists w',
    initializer jsonParse deniedStorage (Ref 0 (VStr "bar")) (rawOptions (Some quietHandler))
                "foo" (start tt)
    = (w', Ok (Ref 0 (VStr "bar")))
    /\ last (calls w') = Some (OnThrow SecurityError).
Proof.
  destruct (initializer_failure_falls_back jsonParse deniedStorage (Ref 0 (VStr "bar"))
              (rawOptions (Some quietHandler)) "foo" (start tt) SecurityError)
    as (w' & Hrun & Hfw & _ & _).
  - apply ReadThrows. reflexivity.
  - intros handler [= <-]. reflexivity.
  - exists w'. split; [exact Hrun | apply (Hfw quietHandler); reflexivity].
Defined.

Lemma failures_never_reach_caller_witness :
  onThrow (resolve jsonParse None) = None
  /\ snd (initializer_try jsonParse deniedStorage (Ref 0 (VStr "bar")) None "foo" (start tt))
     = Throw SecurityError
  /\ returns (snd (initializer jsonParse deniedStorage (Ref 0 (VStr "bar")) None "foo"
                               (start tt))) = true
  /\ returns (snd (set jsonParse deniedStorage None "foo" (Value (Ref 0 (VStr "baz")))
                        (start tt))) = true
  /\ returns (snd (remove jsonParse deniedStorage None "foo" (start tt))) = true.
Proof.
  split; [reflexivity|]. split; [reflexivity|].
  apply failures_never_reach_caller.
  intros e handler Hsome. discriminate Hsome.
Defined.

Lemma initializer_seeds_truthy_initialValue_witness :
  initializer jsonParse memoryStorage (Ref 0 (VStr "bar")) None "foo" (start ∅)
  = (World (<["foo" := quoteString "bar"]> ∅) undefined 1
           [GetItem "foo"; SetItem "foo" (quoteString "bar")],
     Ok (Ref 0 (VStr "bar")))
  /\ initializer jsonParse memoryStorage undefined None "foo" (start ∅)
     = (World ∅ undefined 1 [GetItem "foo"], Ok undefined).
Proof.
  split.
  - destruct (initializer_seeds_truthy_initialValue jsonParse memoryStorage
                (Ref 0 (VStr "bar")) None "foo" (start ∅)) as [Hseed _]; [reflexivity|].
    apply Hseed; reflexivity.
  - destruct (initializer_seeds_truthy_initialValue jsonParse memoryStorage
                undefined None "foo" (start ∅)) as [_ Hnone]; [reflexivity|].
    apply Hnone; reflexivity.
Defined.

(** C2 as stated fails: [initialValue] 0 is supplied, the storage has no
    entry, and the initializer returns 0 without a write. *)
Lemma initializer_skips_falsy_initialValue :
  let initialValue := Ref 0 (VNum 0) in
  let run := initializer jsonParse memoryStorage initialValue None "foo" (start ∅) in
  getItem memoryStorage (store (start ∅)) "foo" = Ok None
  /\ val initialValue <> VUndefined
  /\ serializer (resolve jsonParse None) (val initialValue) = Ok "0"
  /\ run = (World ∅ undefined 1 [GetItem "foo"], Ok initialValue)
  /\ ~ In (SetItem "foo" "0") (calls (fst run))
  /\ getItem memoryStorage (store (fst run)) "foo" = Ok None.
Proof.
  simpl. repeat split; try reflexivity; try discriminate.
  intros [H | []]. discriminate H.
Qed.

(** C3 at an object: in raw mode the initializer seeds the storage with
    [String(initialValue)], which for an object is ["[object Object]"],
    where [set] writes the JSON text of the same value. *)
Theorem raw_initializer_seeds_object_as_String :
  let initialValue := Ref 0 (VObj [("bar", VBool true)]) in
  let json := "{" +:+ quoteString "bar" +:+ ":true}" in
  JSON_stringify (val initialValue) = Some json
  /\ initializer jsonParse memoryStorage initialValue (rawOptions None) "foo" (start ∅)
     = (World (<["foo" := "[object Object]"]> ∅) undefined 1
              [GetItem "foo"; SetItem "foo" "[object Object]"],
        Ok initialValue)
  /\ calls (fst (set jsonParse memoryStorage (rawOptions None) "foo" (Value initialValue)
                     (start ∅)))
     = [SetItem "foo" json]
  /\ json <> "[object Object]".
Proof. simpl. repeat split; try reflexivity. discriminate. Qed.



Lemma set_holds_round_trip_witness :
  let v := Ref 0 (VObj [("ok", VStr "bar")]) in
  let w1 := fst (set jsonParse memoryStorage None "foo" (Value v) (start ∅)) in
  storedObject w1 = Ref 1 (VObj [("ok", VStr "bar")])
  /\ val (storedObject (fst (reconcile jsonParse deepEqual memoryStorage undefined None
                                       "foo" w1)))
     = VObj [("ok", VStr "bar")]
  /\ deepEqual (val (storedObject (fst (reconcile jsonParse deepEqual memoryStorage undefined
                                                  None "foo" w1))))
               (val v) = true.
Proof.
  pose proof (set_holds_round_trip jsonParse deepEqual memoryStorage undefined None "foo"
                (Ref 0 (VObj [("ok", VStr "bar")])) (start ∅)
                ("{" +:+ quoteString "ok" +:+ ":" +:+ quoteString "bar" +:+ "}")
                (<["foo" := "{" +:+ quoteString "ok" +:+ ":" +:+ quoteString "bar" +:+ "}"]> ∅)
                (VObj [("ok", VStr "bar")])) as H.
  destruct H as [Hheld Hrec]; try reflexivity; [discriminate|].
  destruct Hrec as [Hval Heq]; try reflexivity.
  split; [exact Hheld|]. split; [exact Hval | exact Heq].
Defined.

Lemma raw_set_holds_value_not_text_witness :
  let v := Ref 0 (VObj [("fizz", VStr "bang")]) in
  let text := "{" +:+ quoteString "fizz" +:+ ":" +:+ quoteString "bang" +:+ "}" in
  let w1 := fst (set jsonParse memoryStorage (rawOptions None) "foo" (Value v) (start ∅)) in
  calls w1 = [SetItem "foo" text]
  /\ storedObject w1 = v
  /\ snd (initializer jsonParse memoryStorage undefined (rawOptions None) "foo" w1)
     = Ok (Ref 1 (VStr text))
  /\ storedObject (fst (reconcile jsonParse deepEqual memoryStorage undefined (rawOptions None)
                                  "foo" w1))
     = Ref 1 (VStr text).
Proof.
  pose proof (raw_set_holds_value_not_text jsonParse deepEqual memoryStorage undefined
                (rawOptions None) "foo" (Ref 0 (VObj [("fizz", VStr "bang")])) (start ∅)
                ("{" +:+ quoteString "fizz" +:+ ":" +:+ quoteString "bang" +:+ "}")
                (<["foo" := "{" +:+ quoteString "fizz" +:+ ":" +:+ quoteString "bang" +:+ "}"]> ∅))
    as H.
  destruct H as [Hrun Hread]; try reflexivity; try discriminate.
  destruct Hread as (Hinit & _ & Hrec); [reflexivity|].
  split; [rewrite Hrun; reflexivity|].
  split; [rewrite Hrun; reflexivity|].
  split; [exact Hinit | apply Hrec; reflexivity].
Defined.

Lemma set_failure_contained_witness :
  exists w',
    set jsonParse (quotaStorage 3) (customOptions (Some quietHandler) stringify jsonParse)
        "foo" (Value (Ref 0 (VStr "hello"))) (start ∅)
    = (w', Ok tt)
    /\ last (calls w') = Some (OnThrow QuotaExceededError)
    /\ storedObject w' = undefined
    /\ store w' = ∅.
Proof.
  destruct (set_failure_contained jsonParse (quotaStorage 3)
              (customOptions (Some quietHandler) stringify jsonParse)
              "foo" (Value (Ref 0 (VStr "hello"))) (start ∅) QuotaExceededError AtWrite)
    as (w' & Hrun & Hfw & Hheld & Hst).
  - apply (WriteFails _ _ _ _ _ _ _ (Ref 0 (VStr "hello")) (quoteString "hello"));
      try reflexivity. discriminate.
  - intros handler [= <-]. reflexivity.
  - exists w'. repeat split;
      [exact Hrun | apply (Hfw quietHandler); reflexivity | exact Hheld
       | apply Hst; discriminate].
Defined.

(** C1 as stated fails when the step that throws is the re-derivation of
    the held value: the error is caught and handed on, the held value is
    as before, but the entry under the key has been written. *)
Lemma set_deserializer_failure_keeps_write :
  let options := customOptions (Some quietHandler) stringify failingDeserializer in
  let action := Value (Ref 0 (VStr "bar")) in
  let run := set jsonParse memoryStorage options "foo" action (start ∅) in
  snd (set_try jsonParse memoryStorage options "foo" action (start ∅)) = Throw SyntaxError
  /\ snd run = Ok tt
  /\ last (calls (fst run)) = Some (OnThrow SyntaxError)
  /\ storedObject (fst run) = undefined
  /\ getItem memoryStorage (store (start ∅)) "foo" = Ok None
  /\ getItem memoryStorage (store (fst run)) "foo" = Ok (Some (quoteString "bar"))
  /\ getItem memoryStorage (store (fst run)) "foo"
     <> getItem memoryStorage (store (start ∅)) "foo".
Proof. simpl. repeat split; try reflexivity. discriminate. Qed.

(** ** The test suite, run on the model *)

(** 'retrieves an existing value from Storage' *)
Example retrieves_existing_value :
  snd (useStorage jsonParse (mockStorage (Some (quoteString "bar"))) undefined None true
                  (VStr "foo") (start tt))
  = Ok (Ref 1 (VStr "bar")).
Proof. reflexivity. Qed.

(** 'should return initialValue if Storage empty and set that to Storage' *)
Example returns_and_stores_initialValue :
  let run := useStorage jsonParse (mockStorage None) (Ref 0 (VStr "bar")) None true
                        (VStr "foo") (start tt) in
  snd run = Ok (Ref 0 (VStr "bar"))
  /\ In (SetItem "foo" (quoteString "bar")) (calls (fst run)).
Proof. simpl. split; [reflexivity | right; left; reflexivity]. Qed.

(** 'does not clobber existing Storage with initialState' *)
Example does_not_clobber :
  calls (fst (useStorage jsonParse (mockStorage (Some (quoteString "bar")))
                         (Ref 0 (VStr "buzz")) None true (VStr "foo") (start tt)))
  = [GetItem "foo"; ConsoleLog (VStr "bar")].
Proof. reflexivity. Qed.

(** 'returns and allows null setting' *)
Example allows_null_setting :
  let run := set jsonParse (mockStorage (Some "null")) None "foo" (Value (Ref 0 VNull))
                 (start tt) in
  calls (fst run) = [SetItem "foo" "null"] /\ val (storedObject (fst run)) = VNull.
Proof. split; reflexivity. Qed.

(** 'sets Storage from the function updater' *)
Example sets_from_updater :
  let merge (state : ref) : result ref :=
    match val state with
    | VObj fields => Ok (Ref 2 (VObj (setField "fizz" (VStr "buzz") fields)))
    | _ => Throw (Error "TypeError" "not an object")
    end in
  let mounted := fst (useStorage jsonParse memoryStorage (Ref 0 (VObj [("foo", VStr "bar")]))
                                 None true (VStr "foo") (start ∅)) in
  let run := set jsonParse memoryStorage None "foo" (Updater merge) mounted in
  last (calls (fst run))
  = Some (SetItem "foo" ("{" +:+ quoteString "foo" +:+ ":" +:+ quoteString "bar" +:+ ","
                             +:+ quoteString "fizz" +:+ ":" +:+ quoteString "buzz" +:+ "}"))
  /\ val (storedObject (fst run)) = VObj [("foo", VStr "bar"); ("fizz", VStr "buzz")].
Proof. split; reflexivity. Qed.

(** 'returns a string when Storage is a stringified object' (raw mode) *)
Example raw_returns_a_string :
  let text := "{" +:+ quoteString "fizz" +:+ ":" +:+ quoteString "buzz" +:+ "}" in
  snd (useStorage jsonParse (mockStorage (Some text)) (Ref 0 VNull) (rawOptions None) true
                  (VStr "foo") (start tt))
  = Ok (Ref 1 (VStr text)).
Proof. reflexivity. Qed.

(** [remove] deletes the entry and clears the held value. *)
Example remove_clears :
  let mounted := fst (useStorage jsonParse memoryStorage (Ref 0 (VStr "bar")) None true
                                 (VStr "foo") (start ∅)) in
  let run := remove jsonParse memoryStorage None "foo" mounted in
  getItem memoryStorage (store mounted) "foo" = Ok (Some (quoteString "bar"))
  /\ getItem memoryStorage (store (fst run)) "foo" = Ok None
  /\ storedObject (fst run) = undefined.
Proof. repeat split; reflexivity. Qed.

(** ** The further properties at work *)

Lemma set_undefined_is_noop_witness :
  set jsonParse memoryStorage None "foo" (Updater (fun _ => Ok undefined)) (start ∅)
  = (start ∅, Ok tt).
Proof.
  apply (set_undefined_is_noop jsonParse memoryStorage None "foo"
           (Updater (fun _ => Ok undefined)) (start ∅) undefined);
    reflexivity.
Defined.

Lemma remove_failure_contained_witness :
  let w := World tt (Ref 0 (VStr "bar")) 1 [] in
  exists w',
    remove jsonParse deniedStorage (rawOptions (Some quietHandler)) "foo" w = (w', Ok tt)
    /\ last (calls w') = Some (OnThrow SecurityError)
    /\ storedObject w' = Ref 0 (VStr "bar").
Proof.
  intro w.
  destruct (remove_failure_contained jsonParse deniedStorage (rawOptions (Some quietHandler))
              "foo" w SecurityError) as (w' & Hrun & Hfw & Hheld & _).
  - reflexivity.
  - intros handler [= <-]. reflexivity.
  - exists w'. split; [exact Hrun|].
    split; [apply (Hfw quietHandler); reflexivity | exact Hheld].
Defined.

Lemma remove_then_reconcile_reseeds_witness :
  let initialValue := Ref 0 (VStr "bar") in
  let w := World (<["foo" := quoteString "baz"]> ∅) (Ref 1 (VStr "baz")) 2 [] in
  let w1 := fst (remove jsonParse memoryStorage None "foo" w) in
  let w2 := fst (reconcile jsonParse deepEqual memoryStorage initialValue None "foo" w1) in
  storedObject w1 = undefined
  /\ storedObject w2 = initialValue
  /\ getItem memoryStorage (store w2) "foo" = Ok (Some (quoteString "bar")).
Proof.
  intros initialValue w w1 w2.
  destruct (remove_then_reconcile_reseeds jsonParse deepEqual memoryStorage initialValue None
              "foo" w (delete "foo" (<["foo" := quoteString "baz"]> ∅))
              (<["foo" := quoteString "bar"]> (delete "foo" (<["foo" := quoteString "baz"]> ∅)))
              (quoteString "bar"))
    as (Hcleared & _ & Hheld & Hstore); try reflexivity.
  split; [exact Hcleared|]. split; [exact Hheld|].
  subst w2 w1. rewrite Hstore. reflexivity.
Defined.

Lemma reconcile_adopts_changed_entry_witness :
  reconcile jsonParse deepEqual (mockStorage (Some (quoteString "baz"))) undefined None "foo"
            (World tt (Ref 0 (VStr "bar")) 1 [])
  = (World tt (Ref 1 (VStr "baz")) 2 [GetItem "foo"], Ok tt).
Proof.
  apply (reconcile_adopts_changed_entry jsonParse deepEqual
           (mockStorage (Some (quoteString "baz"))) undefined None "foo"
           (World tt (Ref 0 (VStr "bar")) 1 []) (quoteString "baz") (VStr "baz"));
    reflexivity.
Defined.

Lemma reconcile_failure_resets_to_initialValue_witness :
  let initialValue := Ref 0 (VStr "bar") in
  let w := World tt (Ref 5 (VStr "baz")) 6 [] in
  storedObject (fst (reconcile jsonParse deepEqual deniedStorage initialValue None "foo" w))
  = initialValue.
Proof.
  intros initialValue w.
  destruct (reconcile_failure_resets_to_initialValue jsonParse deepEqual deniedStorage
              initialValue None "foo" w SecurityError) as (_ & Hheld & _).
  - apply ReadThrows. reflexivity.
  - intros handler Hsome. discriminate Hsome.
  - reflexivity.
  - exact Hheld.
Defined.

Lemma raw_set_string_round_trip_witness :
  let v := Ref 0 (VStr "plain") in
  let w1 := fst (set jsonParse memoryStorage (rawOptions None) "foo" (Value v) (start ∅)) in
  calls w1 = [SetItem "foo" "plain"]
  /\ snd (initializer jsonParse memoryStorage undefined (rawOptions None) "foo" w1)
     = Ok (Ref 1 (VStr "plain"))
  /\ storedObject (fst (reconcile jsonParse deepEqual memoryStorage undefined (rawOptions None)
                                  "foo" w1)) = v.
Proof.
  intros v w1.
  destruct (raw_set_string_round_trip jsonParse deepEqual memoryStorage undefined
              (rawOptions None) "foo" v (start ∅) "plain" (<["foo" := "plain"]> ∅))
    as (Hrun & Hread & Hrec); try reflexivity.
  split; [subst w1; rewrite Hrun; reflexivity|].
  split; [exact Hread | apply Hrec; reflexivity].
Defined.

Lemma set_structured_matches_fresh_read_witness :
  let v := Ref 0 (VArr [VNum 1; VNum 2]) in
  let w1 := fst (set jsonParse memoryStorage None "foo" (Value v) (start ∅)) in
  exists read,
    snd (initializer jsonParse memoryStorage undefined None "foo" w1) = Ok read
    /\ val read = val (storedObject w1).
Proof.
  intros v w1.
  destruct (set_structured_matches_fresh_read jsonParse memoryStorage undefined None "foo" v
              (start ∅) "[1,2]" (<["foo" := "[1,2]"]> ∅) (VArr [VNum 1; VNum 2]))
    as (read & Hread & Hval & _); try reflexivity; [discriminate|].
  exists read. split; [exact Hread | exact Hval].
Defined.

Lemma initializer_writes_only_to_seed_witness :
  let run := initializer jsonParse (mockStorage (Some "null")) (Ref 0 (VStr "bar")) None
                         "foo" (start tt) in
  store (fst run) = tt
  /\ forall k text, ~ In (SetItem k text) (calls (fst run)).
Proof.
  intro run.
  destruct (initializer_writes_only_to_seed jsonParse (mockStorage (Some "null"))
              (Ref 0 (VStr "bar")) None "foo" (start tt)) as [Hstore Hcalls].
  - left. discriminate.
  - split; [exact Hstore|]. intros k text Hin. exact (Hcalls k text Hin).
Defined.

Lemma mount_on_unreadable_storage_witness :
  exists w',
    useStorage jsonParse deniedStorage (Ref 0 (VStr "bar")) None true (VStr "foo") (start tt)
    = (w', Ok (Ref 0 (VStr "bar")))
    /\ storedObject w' = Ref 0 (VStr "bar").
Proof.
  destruct (mount_on_unreadable_storage jsonParse deniedStorage (Ref 0 (VStr "bar")) None
              (VStr "foo") (start tt) SecurityError) as (w' & Hrun & Hheld & _).
  - reflexivity.
  - reflexivity.
  - intros handler Hsome. discriminate Hsome.
  - exists w'. split; [exact Hrun | exact Hheld].
Defined.

Lemma mount_then_effect_witness :
  let initialValue := Ref 0 (VObj [("ok", VBool true)]) in
  let w1 := fst (useStorage jsonParse memoryStorage initialValue None true (VStr "foo")
                            (start ∅)) in
  let w2 := fst (reconcile jsonParse deepEqual memoryStorage initialValue None "foo" w1) in
  storedObject w2 = initialValue
  /\ getItem memoryStorage (store w2) "foo" = Ok (Some ("{" +:+ quoteString "ok" +:+ ":true}")).
Proof.
  intros initialValue w1 w2.
  destruct (mount_then_effect jsonParse deepEqual memoryStorage initialValue None
              (VStr "foo") (start ∅) ("{" +:+ quoteString "ok" +:+ ":true}")
              (<["foo" := "{" +:+ quoteString "ok" +:+ ":true}"]> ∅)
              (VObj [("ok", VBool true)]))
    as (_ & _ & Hheld & Hstore); try reflexivity.
  split; [exact Hheld|]. subst w2 w1.
  change (ToString (VStr "foo")) with "foo" in Hstore. rewrite Hstore. reflexivity.
Defined.

Lemma handler_failure_escapes_witness :
  let boom := Error "Error" "handler" in
  let options := rawOptions (Some (fun _ => Throw boom)) in
  snd (initializer jsonParse deniedStorage undefined options "foo" (start tt)) = Throw boom
  /\ snd (set jsonParse deniedStorage options "foo" (Value (Ref 0 (VStr "bar"))) (start tt))
     = Throw boom
  /\ snd (remove jsonParse deniedStorage options "foo" (start tt)) = Throw boom.
Proof.
  intros boom options.
  destruct (handler_failure_escapes jsonParse deniedStorage undefined options "foo"
              (Value (Ref 0 (VStr "bar"))) (start tt) (fun _ => Throw boom)
              SecurityError boom) as (Hinit & Hset & Hremove); try reflexivity.
  split; [apply Hinit; reflexivity|].
  split; [apply Hset; reflexivity | apply Hremove; reflexivity].
Defined.

Lemma raw_seed_and_set_texts_witness :
  serializer (resolve jsonParse (rawOptions None)) (VNum 5)
  = transform jsonParse (rawOptions None) (VNum 5)
  /\ serializer (resolve jsonParse (rawOptions None)) (VObj [("bar", VBool true)])
     <> transform jsonParse (rawOptions None) (VObj [("bar", VBool true)]).
Proof.
  destruct (raw_seed_and_set_texts jsonParse (rawOptions None) (VNum 5)) as [Hsame Hdiffer];
    [reflexivity|].
  split; [|apply Hdiffer].
  apply Hsame. right. right. right. exists 5%Z. split; [reflexivity | lia].
Defined.

Lemma render_and_effect_return_witness :
  returns (snd (useStorage jsonParse deniedStorage (Ref 0 (VStr "bar"))
                           (rawOptions (Some quietHandler)) true (VStr "foo") (start tt)))
  = true
  /\ returns (snd (reconcile jsonParse deepEqual deniedStorage (Ref 0 (VStr "bar"))
                             (rawOptions (Some quietHandler)) "foo" (start tt)))
     = true.
Proof.
  apply (render_and_effect_return jsonParse deepEqual deniedStorage (Ref 0 (VStr "bar"))
           (rawOptions (Some quietHandler)) true (VStr "foo") (start tt)).
  - reflexivity.
  - intros e handler [= <-]. reflexivity.
Defined.
